(** * jok3r: service-name matching and filter translation

    A shallow embedding of

    - [lib/importer/Config.py]     ([SERVICE_NAME_MATCHING], [get_service_name])
    - [lib/requester/Condition.py] (class [Condition]: [__init__], [translate]
      and the [__translate_*] comparators)

    together with the Python builtins these two files rely on ([int], [str],
    [str.lower], [str.split], truthiness, exceptions and the fragment of [re]
    used by the pattern table). *)

From Stdlib Require Import ZArith List String Ascii Bool Lia DecimalString.
From Stdlib Require Import Permutation.
Import ListNotations.

Local Open Scope string_scope.
Local Open Scope Z_scope.

(* ====================================================================== *)
(** * Python builtins *)
(* ====================================================================== *)

Module Py.

(** The values a filter can carry.  A Python [str] is modelled as a [string]
    whose characters are code points below 256. *)
Inductive pyval : Type :=
| VNone
| VBool (b : bool)
| VInt (n : Z)
| VStr (s : string).

(** The exceptions that the modelled code can raise.  [FilterException] is the
    project's own class ([lib.core.Exceptions]); the others are Python
    builtins, none of which derives from it. *)
Inductive exn : Type :=
| FilterException (msg : string)
| ValueError
| TypeError
| AttributeError
| NameError (name : string).

(** A computation either returns a value or raises. *)
Inductive res (A : Type) : Type :=
| Ok (a : A)
| Raise (e : exn).

Arguments Ok {A} a.
Arguments Raise {A} e.

Definition bind {A B : Type} (m : res A) (k : A -> res B) : res B :=
  match m with
  | Ok a => k a
  | Raise e => Raise e
  end.

Notation "x <- m ;; k" := (bind m (fun x => k))
  (at level 61, m at next level, right associativity).

(** [bool(v)], as evaluated by [if v:]. *)
Definition truthy (v : pyval) : bool :=
  match v with
  | VNone => false
  | VBool b => b
  | VInt n => negb (n =? 0)
  | VStr s => negb (String.eqb s EmptyString)
  end.

(** [str(v)], which is also what ['{value}'.format(value=v)] inserts. *)
Definition str (v : pyval) : string :=
  match v with
  | VNone => "None"
  | VBool true => "True"
  | VBool false => "False"
  | VInt n => NilZero.string_of_int (Z.to_int n)
  | VStr s => s
  end.

Definition code (c : ascii) : nat := nat_of_ascii c.

Definition between_nat (lo hi n : nat) : bool :=
  (Nat.leb lo n && Nat.leb n hi)%bool.

(** [str.isspace] on one character: the Unicode white space below 256. *)
Definition isspace (c : ascii) : bool :=
  (between_nat 9 13 (code c) || between_nat 28 32 (code c)
   || Nat.eqb (code c) 133 || Nat.eqb (code c) 160)%bool.

(** The white space that [int] strips from both ends of its argument: the
    ASCII blanks, and the two non-ASCII spaces below 256. *)
Definition int_space (c : ascii) : bool :=
  (between_nat 9 13 (code c) || Nat.eqb (code c) 32
   || Nat.eqb (code c) 133 || Nat.eqb (code c) 160)%bool.

Fixpoint lstrip (s : string) : string :=
  match s with
  | EmptyString => EmptyString
  | String c s' => if int_space c then lstrip s' else s
  end.

Fixpoint rstrip (s : string) : string :=
  match s with
  | EmptyString => EmptyString
  | String c s' =>
      match rstrip s' with
      | EmptyString => if int_space c then EmptyString else String c EmptyString
      | r => String c r
      end
  end.

Definition digit (c : ascii) : bool := between_nat 48 57 (code c).

Definition digit_of (c : ascii) : option Z :=
  if digit c then Some (Z.of_nat (code c) - 48) else None.

(** Decimal digits, where single underscores may separate two digits.
    [after_digit] tells whether the previous character was a digit. *)
Fixpoint int_digits (s : string) (acc : Z) (after_digit : bool) : option Z :=
  match s with
  | EmptyString => if after_digit then Some acc else None
  | String c s' =>
      match digit_of c with
      | Some d => int_digits s' (10 * acc + d) true
      | None =>
          if (Ascii.eqb c "_" && after_digit)%bool
          then int_digits s' acc false
          else None
      end
  end.

(** The integer literal accepted by [int(s)] for a string [s], base 10.
    (The limit some interpreters put on the number of digits is not part of
    the model.) *)
Definition int_literal (s : string) : option Z :=
  match rstrip (lstrip s) with
  | String "+" r => int_digits r 0 false
  | String "-" r => option_map Z.opp (int_digits r 0 false)
  | t => int_digits t 0 false
  end.

(** [int(v)]. *)
Definition int (v : pyval) : res Z :=
  match v with
  | VNone => Raise TypeError
  | VBool b => Ok (if b then 1 else 0)
  | VInt n => Ok n
  | VStr s =>
      match int_literal s with
      | Some n => Ok n
      | None => Raise ValueError
      end
  end.

(** [str.lower] on one character (code points below 256). *)
Definition lower_char (c : ascii) : ascii :=
  if (between_nat 65 90 (code c)
      || (between_nat 192 222 (code c) && negb (Nat.eqb (code c) 215)))%bool
  then ascii_of_nat (code c + 32)
  else c.

Fixpoint lower_str (s : string) : string :=
  match s with
  | EmptyString => EmptyString
  | String c s' => String (lower_char c) (lower_str s')
  end.

(** [v.lower()]: only strings have the method. *)
Definition lower (v : pyval) : res string :=
  match v with
  | VStr s => Ok (lower_str s)
  | _ => Raise AttributeError
  end.

(** [s.split(sep)] for a one-character separator. *)
Fixpoint split_str (sep : ascii) (s : string) : list string :=
  match s with
  | EmptyString => [EmptyString]
  | String c s' =>
      if Ascii.eqb c sep then EmptyString :: split_str sep s'
      else
        match split_str sep s' with
        | h :: t => String c h :: t
        | [] => [String c EmptyString]
        end
  end.

(** [v.split(sep)]: only strings have the method. *)
Definition split (v : pyval) (sep : ascii) : res (list string) :=
  match v with
  | VStr s => Ok (split_str sep s)
  | _ => Raise AttributeError
  end.

(** [c in s] for a character [c]. *)
Definition has_char (c : ascii) (s : string) : bool :=
  existsb (Ascii.eqb c) (list_ascii_of_string s).

(** [a, b = parts]: unpacking into exactly two names. *)
Definition unpack2 {A : Type} (parts : list A) : res (A * A) :=
  match parts with
  | [a; b] => Ok (a, b)
  | _ => Raise ValueError
  end.

End Py.

(* ====================================================================== *)
(** * The fragment of [re] used by the pattern table *)
(* ====================================================================== *)

Module Re.

(** Patterns built from literal characters, the anchor [^], the class [\S],
    groups, and the postfix operators [*] and [?]. *)
Inductive regex : Type :=
| Eps
| Bol
| Lit (c : ascii)
| NonSpace
| Seq (r1 r2 : regex)
| Opt (r : regex)
| Star (r : regex).

Definition seq_of (rev_atoms : list regex) : regex :=
  fold_left (fun acc a => Seq a acc) rev_atoms Eps.

Definition quantifiable (r : regex) : bool :=
  match r with
  | Lit _ | NonSpace | Seq _ _ | Eps => true
  | Bol | Opt _ | Star _ => false
  end.

Definition is_meta (c : ascii) : bool :=
  existsb (Ascii.eqb c) (list_ascii_of_string ".+[]{}|$").

(** Reading a pattern from left to right; [cur] holds the atoms of the group
    being read, last one first, and [stack] the enclosing groups.  Patterns
    outside the fragment yield [None]. *)
Fixpoint parse (p : string) (cur : list regex) (stack : list (list regex))
  : option regex :=
  match p with
  | EmptyString =>
      match stack with
      | [] => Some (seq_of cur)
      | _ :: _ => None
      end
  | String "^" p' => parse p' (Bol :: cur) stack
  | String "\" (String "S" p') => parse p' (NonSpace :: cur) stack
  | String "\" _ => None
  | String "(" p' => parse p' [] (cur :: stack)
  | String ")" p' =>
      match stack with
      | outer :: stack' => parse p' (seq_of cur :: outer) stack'
      | [] => None
      end
  | String "*" p' =>
      match cur with
      | a :: cur' =>
          if quantifiable a then parse p' (Star a :: cur') stack else None
      | [] => None
      end
  | String "?" p' =>
      match cur with
      | a :: cur' =>
          if quantifiable a then parse p' (Opt a :: cur') stack else None
      | [] => None
      end
  | String c p' =>
      if is_meta c then None else parse p' (Lit c :: cur) stack
  end.

Definition compile (pattern : string) : option regex := parse pattern [] [].

(** A position in the subject: whether it is the start, and what is left. *)
Definition pos : Type := (bool * string)%type.

(** The repetition [r*]: another round of [step] as long as the round
    consumes something, then the position itself. *)
Fixpoint star_loop (step : pos -> list pos) (fuel : nat) (st : pos)
  : list pos :=
  match fuel with
  | O => [st]
  | S fuel' =>
      (flat_map
         (fun st' =>
            if Nat.ltb (String.length (snd st')) (String.length (snd st))
            then star_loop step fuel' st' else [])
         (step st)
       ++ [st])%list
  end.

(** All the positions at which a match of [r] started at [st] can end, in
    the order a backtracking matcher tries them.  Literals are compared
    under [re.IGNORECASE]. *)
Fixpoint run (r : regex) (st : pos) : list pos :=
  match r with
  | Eps => [st]
  | Bol => if fst st then [st] else []
  | Lit c =>
      match snd st with
      | String d s' =>
          if Ascii.eqb (Py.lower_char d) (Py.lower_char c)
          then [(false, s')] else []
      | EmptyString => []
      end
  | NonSpace =>
      match snd st with
      | String d s' => if Py.isspace d then [] else [(false, s')]
      | EmptyString => []
      end
  | Seq r1 r2 => flat_map (run r2) (run r1 st)
  | Opt r' => (run r' st ++ [st])%list
  | Star r' => star_loop (run r') (String.length (snd st)) st
  end.

(** A position with what is left of the subject put in lower case. *)
Definition lower_pos (st : pos) : pos := (fst st, Py.lower_str (snd st)).

Definition matches (r : regex) (s : string) : bool :=
  match run r (true, s) with
  | [] => false
  | _ :: _ => true
  end.

(** [re.match(pattern, s, re.IGNORECASE)], as a truth value. *)
Definition match_ignorecase (pattern s : string) : bool :=
  match compile pattern with
  | Some r => matches r s
  | None => false
  end.

End Re.

(* ====================================================================== *)
(** * lib/importer/Config.py *)
(* ====================================================================== *)

Module Config.

(** The dictionary, as its items in insertion order, which is the order in
    which a [for] loop visits its keys (Python 3.7 and later). *)
Definition SERVICE_NAME_MATCHING : list (string * string) :=
  [ ("^ajp\S*", "ajp");
    ("^ftp\S*", "ftp");
    ("^\S*http\S*", "http");
    ("^ssl/ssl", "http");
    ("^rmiregistry", "java-rmi");
    ("^jdwp", "jdwp");
    ("^ms-?sql\S*", "mssql");
    ("^mysql\S*", "mysql");
    ("^oracle\S*", "oracle");
    ("^postgre(sql)?", "postgresql");
    ("^ms-wbt-server", "rdp");
    ("^rdp", "rdp");
    ("^microsoft-ds", "smb");
    ("^smb", "smb");
    ("^smtp\S*", "smtp");
    ("^snmp\S*", "snmp");
    ("^ssh", "ssh");
    ("^telnet\S*", "telnet");
    ("^vnc", "vnc") ].

(** The loop [for pattern in table: if re.match(...): return table[pattern]]
    followed by [return original_service_name]. *)
Fixpoint for_pattern (items : list (string * string))
  (original_service_name : string) : string :=
  match items with
  | [] => original_service_name
  | (pattern, name) :: rest =>
      if Re.match_ignorecase pattern original_service_name
      then name
      else for_pattern rest original_service_name
  end.

Definition get_service_name (original_service_name : string) : string :=
  for_pattern SERVICE_NAME_MATCHING original_service_name.

End Config.

(* ====================================================================== *)
(** * lib/requester/Condition.py *)
(* ====================================================================== *)

Module Condition.

Import Py.

(** ** What the module imports *)

(** The members of the enumeration [FilterData] ([lib.core.Constants]) that
    the class names. *)
Inductive FilterData : Type :=
| IP | HOST | PORT | PROTOCOL | UP | SERVICE | SERVICE_EXACT | SERVICE_ID
| OS | OS_FAMILY | BANNER | URL | URL_EXACT | HTML_TITLE | HTTP_HEADERS
| USERNAME | PASSWORD | AUTH_TYPE | USER_AND_PASS | ONLY_USER
| COMMENT_SERVICE | COMMENT_HOST | COMMENT_CRED | COMMENT_MISSION
| MISSION_EXACT | MISSION | CHECK_ID | CHECK_NAME | COMMAND_OUTPUT | VULN
| OPTION_NAME | OPTION_VALUE | PRODUCT_TYPE | PRODUCT_NAME | PRODUCT_VERSION
| UNSCANNED.

(** What a caller can pass as [filtertype]: one of the members above, or any
    other hashable object ([Other], told apart by a tag). *)
Inductive kind : Type :=
| Member (m : FilterData)
| Other (tag : nat).

(** The mapped classes of [lib.db]. *)
Inductive entity : Type :=
| CommandOutput | Credential | Host | Mission | Option | Product | Result
| Service | Vuln.

(** The members of [Protocol] ([lib.db.Service]) that the class names. *)
Inductive Protocol : Type := TCP | UDP.

(** The global names of the module that denote mapped classes, as bound by
    its [import] statements.  [Sevrice], which [__translate_port] names, is
    not among them: the spec records it as a misspelling of [Service]. *)
Definition globals : list (string * entity) :=
  [ ("CommandOutput", CommandOutput); ("Credential", Credential);
    ("Host", Host); ("Mission", Mission); ("Option", Option);
    ("Product", Product); ("Result", Result); ("Service", Service);
    ("Vuln", Vuln) ].

(** Evaluating a global name. *)
Definition global (name : string) : res entity :=
  match find (fun b => String.eqb (fst b) name) globals with
  | Some b => Ok (snd b)
  | None => Raise (NameError name)
  end.

(** [lib/utils/NetUtils.py] is used through four of its predicates, which
    the class takes as given. *)
Record NetUtils : Type := {
  is_valid_ip : pyval -> bool;
  is_valid_ip_range : pyval -> bool;
  is_valid_port : pyval -> bool;
  is_valid_port_range : pyval -> bool
}.

(** ** Sqlalchemy filters *)

(** An attribute of a mapped class, such as [Service.port]. *)
Inductive column : Type :=
| Col (e : entity) (attr : string).

Inductive operand : Type :=
| Val (v : pyval)
| Enum (p : Protocol)
| Column (c : column).

(** The filter expressions the class builds, named after the operators and
    methods that build them ([|] is [or_] and [&] is [and_]). *)
Inductive Predicate : Type :=
| __eq__ (c : column) (rhs : operand)
| ilike (c : column) (pattern : string)
| between (c : column) (cleft cright : Z)
| is_ (c : column) (v : pyval)
| isnot (c : column) (v : pyval)
| is_in_ip_range (value : pyval)
| exists_ (e : entity) (criterion : Predicate)
| and_ (p q : Predicate)
| or_ (p q : Predicate)
| not_ (p : Predicate).

(** ** The comparators *)

Section Comparators.

Variable N : NetUtils.

(** What a comparator returns: a filter, or [None]. *)
Definition translated : Type := res (option Predicate).

(** [c.ilike('%'+str(value)+'%')], the body of the LIKE comparators. *)
Definition like (c : column) (value : pyval) : translated :=
  Ok (Some (ilike c ("%" ++ str value ++ "%"))).

Definition __translate_ip (value : pyval) : translated :=
  if is_valid_ip N value then
    Ok (Some (__eq__ (Col Host "ip") (Val value)))
  else if is_valid_ip_range N value then
    Ok (Some (is_in_ip_range value))
  else
    Raise (FilterException (str value ++ " invalid IP/range")).

Definition __translate_host (value : pyval) : translated :=
  like (Col Host "hostname") value.

Definition __translate_port (value : pyval) : translated :=
  if is_valid_port N value then
    n <- int value ;;
    Ok (Some (__eq__ (Col Service "port") (Val (VInt n))))
  else if is_valid_port_range N value then
    parts <- split value "-" ;;
    ports <- unpack2 parts ;;
    Sevrice <- global "Sevrice" ;;
    minport <- int (VStr (fst ports)) ;;
    maxport <- int (VStr (snd ports)) ;;
    Ok (Some (between (Col Sevrice "port") minport maxport))
  else
    Raise (FilterException (str value ++ " invalid port/range")).

Definition __translate_protocol (value : pyval) : translated :=
  l <- lower value ;;
  if String.eqb l "tcp" then
    Ok (Some (__eq__ (Col Service "protocol") (Enum TCP)))
  else
    l <- lower value ;;
    if String.eqb l "udp" then
      Ok (Some (__eq__ (Col Service "protocol") (Enum UDP)))
    else
      Raise (FilterException (str value ++ " invalid protocol")).

Definition __translate_up (value : pyval) : translated :=
  val <- match value with
         | VBool b => Ok b
         | VStr s => Ok (String.eqb (lower_str s) "true")
         | _ => Raise (FilterException (str value ++ " invalid up status"))
         end ;;
  Ok (Some (__eq__ (Col Service "up") (Val (VBool val)))).

Definition __translate_service (value : pyval) : translated :=
  like (Col Service "name") value.

Definition __translate_service_exact (value : pyval) : translated :=
  Ok (Some (__eq__ (Col Service "name") (Val value))).

Definition __translate_service_id (value : pyval) : translated :=
  n <- int value ;;
  Ok (Some (__eq__ (Col Service "id") (Val (VInt n)))).

Definition __translate_os (value : pyval) : translated :=
  like (Col Host "os") value.

Definition __translate_os_family (value : pyval) : translated :=
  like (Col Host "os_family") value.

Definition __translate_banner (value : pyval) : translated :=
  like (Col Service "banner") value.

Definition __translate_url (value : pyval) : translated :=
  like (Col Service "url") value.

Definition __translate_url_exact (value : pyval) : translated :=
  Ok (Some (__eq__ (Col Service "url") (Val (VStr (str value))))).

Definition __translate_html_title (value : pyval) : translated :=
  like (Col Service "html_title") value.

Definition __translate_http_headers (value : pyval) : translated :=
  like (Col Service "http_headers") value.

Definition __translate_username (value : pyval) : translated :=
  like (Col Credential "username") value.

Definition __translate_password (value : pyval) : translated :=
  like (Col Credential "password") value.

Definition __translate_auth_type (value : pyval) : translated :=
  like (Col Credential "type") value.

Definition __translate_user_and_pass (boolean : pyval) : translated :=
  if truthy boolean then
    Ok (Some (and_ (isnot (Col Credential "username") VNone)
                   (isnot (Col Credential "password") VNone)))
  else
    Ok None.

Definition __translate_only_user (boolean : pyval) : translated :=
  if truthy boolean then
    Ok (Some (and_ (isnot (Col Credential "username") VNone)
                   (is_ (Col Credential "password") VNone)))
  else
    Ok None.

Definition __translate_comment_service (value : pyval) : translated :=
  like (Col Service "comment") value.

Definition __translate_comment_host (value : pyval) : translated :=
  like (Col Host "comment") value.

Definition __translate_comment_cred (value : pyval) : translated :=
  like (Col Credential "comment") value.

Definition __translate_comment_mission (value : pyval) : translated :=
  like (Col Mission "comment") value.

Definition __translate_mission_exact (value : pyval) : translated :=
  Ok (Some (__eq__ (Col Mission "name") (Val value))).

Definition __translate_mission (value : pyval) : translated :=
  like (Col Mission "name") value.

Definition __translate_check_id (value : pyval) : translated :=
  n <- int value ;;
  Ok (Some (__eq__ (Col Result "id") (Val (VInt n)))).

Definition __translate_check_name (value : pyval) : translated :=
  like (Col Result "check") value.

Definition __translate_command_output (value : pyval) : translated :=
  like (Col CommandOutput "output") value.

Definition __translate_vuln (value : pyval) : translated :=
  like (Col Vuln "name") value.

Definition __translate_option_name (value : pyval) : translated :=
  like (Col Option "name") value.

Definition __translate_option_value (value : pyval) : translated :=
  like (Col Option "value") value.

Definition __translate_product_type (value : pyval) : translated :=
  like (Col Product "type") value.

Definition __translate_product_name (value : pyval) : translated :=
  like (Col Product "name") value.

Definition __translate_product_version (value : pyval) : translated :=
  like (Col Product "version") value.

(** The sub-query is built on a session of its own; the argument is not
    looked at. *)
Definition __translate_unscanned (value : pyval) : translated :=
  Ok (Some (not_ (exists_ Result
                    (__eq__ (Col Service "id")
                            (Column (Col Result "service_id")))))).

(** ** The class *)

(** [self.mapping.get(filtertype)]. *)
Definition mapping (filtertype : kind) : option (pyval -> translated) :=
  match filtertype with
  | Member IP => Some __translate_ip
  | Member HOST => Some __translate_host
  | Member PORT => Some __translate_port
  | Member PROTOCOL => Some __translate_protocol
  | Member UP => Some __translate_up
  | Member SERVICE => Some __translate_service
  | Member SERVICE_EXACT => Some __translate_service_exact
  | Member SERVICE_ID => Some __translate_service_id
  | Member OS => Some __translate_os
  | Member OS_FAMILY => Some __translate_os_family
  | Member BANNER => Some __translate_banner
  | Member URL => Some __translate_url
  | Member URL_EXACT => Some __translate_url_exact
  | Member HTML_TITLE => Some __translate_html_title
  | Member HTTP_HEADERS => Some __translate_http_headers
  | Member USERNAME => Some __translate_username
  | Member PASSWORD => Some __translate_password
  | Member AUTH_TYPE => Some __translate_auth_type
  | Member USER_AND_PASS => Some __translate_user_and_pass
  | Member ONLY_USER => Some __translate_only_user
  | Member COMMENT_SERVICE => Some __translate_comment_service
  | Member COMMENT_HOST => Some __translate_comment_host
  | Member COMMENT_CRED => Some __translate_comment_cred
  | Member COMMENT_MISSION => Some __translate_comment_mission
  | Member MISSION_EXACT => Some __translate_mission_exact
  | Member MISSION => Some __translate_mission
  | Member CHECK_ID => Some __translate_check_id
  | Member CHECK_NAME => Some __translate_check_name
  | Member COMMAND_OUTPUT => Some __translate_command_output
  | Member VULN => Some __translate_vuln
  | Member OPTION_NAME => Some __translate_option_name
  | Member OPTION_VALUE => Some __translate_option_value
  | Member PRODUCT_TYPE => Some __translate_product_type
  | Member PRODUCT_NAME => Some __translate_product_name
  | Member PRODUCT_VERSION => Some __translate_product_version
  | Member UNSCANNED => Some __translate_unscanned
  | Other _ => None
  end.

(** The kinds that have a comparator. *)
Definition recognized (filtertype : kind) : Prop := mapping filtertype <> None.

(** The argument [value] of the constructor: a list, or a single element. *)
Inductive value_arg : Type :=
| Single (v : pyval)
| Many (vs : list pyval).

Record Condition : Type := {
  value : list pyval;
  filtertype : kind
}.

Definition __init__ (value : value_arg) (filtertype : kind) : Condition :=
  {| value := match value with
              | Many vs => vs
              | Single v => [v]
              end;
     filtertype := filtertype |}.

(** The loop [for v in self.value], with [result] as its state.  A comparator
    that raises ends the loop and the call. *)
Fixpoint for_v (method_translate : pyval -> translated) (vs : list pyval)
  (result : option Predicate) : translated :=
  match vs with
  | [] => Ok result
  | v :: vs' =>
      translated <- method_translate v ;;
      match translated with
      | Some t =>
          match result with
          | None => for_v method_translate vs' (Some t)
          | Some r => for_v method_translate vs' (Some (or_ r t))
          end
      | None => for_v method_translate vs' result
      end
  end.

Definition translate (self : Condition) : translated :=
  match mapping (filtertype self) with
  | None => Ok None
  | Some method_translate => for_v method_translate (value self) None
  end.

End Comparators.

End Condition.

(* ====================================================================== *)
(** * Reading the filters *)
(* ====================================================================== *)

Module Sql.

Import Py Condition.

(** The three truth values of SQL. *)
Inductive truth : Type := TRUE | FALSE | UNKNOWN.

Definition truth_and (a b : truth) : truth :=
  match a, b with
  | FALSE, _ | _, FALSE => FALSE
  | TRUE, TRUE => TRUE
  | _, _ => UNKNOWN
  end.

Definition truth_or (a b : truth) : truth :=
  match a, b with
  | TRUE, _ | _, TRUE => TRUE
  | FALSE, FALSE => FALSE
  | _, _ => UNKNOWN
  end.

Definition truth_not (a : truth) : truth :=
  match a with
  | TRUE => FALSE
  | FALSE => TRUE
  | UNKNOWN => UNKNOWN
  end.

Section Holds.

(** A row is seen through two observations: which attributes are NULL, and
    the truth value of each comparison, pattern match, range test and
    sub-query. *)
Variable is_null : column -> bool.
Variable compare : Predicate -> truth.

Fixpoint holds (p : Predicate) : truth :=
  match p with
  | and_ p q => truth_and (holds p) (holds q)
  | or_ p q => truth_or (holds p) (holds q)
  | not_ p => truth_not (holds p)
  | is_ c VNone => if is_null c then TRUE else FALSE
  | isnot c VNone => if is_null c then FALSE else TRUE
  | _ => compare p
  end.

End Holds.

(** "Username is set and password is set". *)
Definition user_and_pass : Predicate :=
  and_ (isnot (Col Credential "username") VNone)
       (isnot (Col Credential "password") VNone).

(** "Username is set and password is not set". *)
Definition only_user : Predicate :=
  and_ (isnot (Col Credential "username") VNone)
       (is_ (Col Credential "password") VNone).

Definition opt_list {A : Type} (o : option A) : list A :=
  match o with
  | Some a => [a]
  | None => []
  end.

(** The logical OR of a sequence of filters, taken from the first to the
    last; there is none for the empty sequence. *)
Definition or_all (ps : list Predicate) : option Predicate :=
  match ps with
  | [] => None
  | p :: ps' => Some (fold_left or_ ps' p)
  end.

(** The filters among the results of the comparator, in order. *)
Definition non_null (rs : list (option Predicate)) : list Predicate :=
  flat_map (fun r => match r with Some p => [p] | None => [] end) rs.

End Sql.

(* ====================================================================== *)
(** * An instance of NetUtils *)
(* ====================================================================== *)

Module SpecNetUtils.

Import Py Condition.

(** Modelled from the spec: the body of [NetUtils.is_valid_port] is missing
    from the sources; the spec has a port written as an integer string, here
    a non-empty string of decimal digits. *)
Definition all_digits (s : string) : bool :=
  (negb (String.eqb s EmptyString)
   && forallb digit (list_ascii_of_string s))%bool.

(** A string of digits that denotes a number up to [bound]. *)
Definition at_most (bound : Z) (s : string) : bool :=
  match int_digits s 0 false with
  | Some n => (all_digits s && (n <=? bound))%bool
  | None => false
  end.

(** Modelled from the spec: the body of [NetUtils.is_valid_ip] is missing
    from the sources; the spec has an address written as a dotted quad, here
    four numbers up to 255 separated by dots. *)
Definition dotted_quad (s : string) : bool :=
  match split_str "." s with
  | [a; b; c; d] => forallb (at_most 255) [a; b; c; d]
  | _ => false
  end.

(** Modelled from the spec: the body of [NetUtils.is_valid_ip_range] is
    missing from the sources; the spec has a range written in CIDR format,
    here a dotted quad, a slash and a prefix length up to 32. *)
Definition cidr (s : string) : bool :=
  match split_str "/" s with
  | [address; bits] => (dotted_quad address && at_most 32 bits)%bool
  | _ => false
  end.

(** Modelled from the spec: the body of [NetUtils.is_valid_port_range] is
    missing from the sources; the spec has a range written [min-max], here
    two strings of digits separated by one dash. *)
Definition min_max (s : string) : bool :=
  match split_str "-" s with
  | [minport; maxport] => (all_digits minport && all_digits maxport)%bool
  | _ => false
  end.

Definition on_str (f : string -> bool) (v : pyval) : bool :=
  match v with
  | VStr s => f s
  | _ => false
  end.

(** Modelled from the spec: [lib/utils/NetUtils.py] is missing from the
    sources.  The four predicates accept the syntaxes that the spec names,
    on strings only. *)
Definition net_utils : NetUtils :=
  {| is_valid_ip := on_str dotted_quad;
     is_valid_ip_range := on_str cidr;
     is_valid_port := on_str all_digits;
     is_valid_port_range := on_str min_max |}.

End SpecNetUtils.

(* ====================================================================== *)
(** * Vocabulary for the properties *)
(* ====================================================================== *)

Module Names.

(** A character that [\S] matches. *)
Definition nonspace (c : ascii) : bool := negb (Py.isspace c).

(** For each item of the table, in order, a name that its pattern is the
    first to match. *)
Definition samples : list string :=
  [ "ajp"; "ftp"; "http"; "ssl/ssl"; "rmiregistry"; "jdwp"; "mssql"; "mysql";
    "oracle"; "postgresql"; "ms-wbt-server"; "rdp"; "microsoft-ds"; "smb";
    "smtp"; "snmp"; "ssh"; "telnet"; "vnc" ].

End Names.

Module Kinds.
Import Py Condition Sql.


(** The kinds whose comparator has a [return None]. *)
Definition is_flag (m : FilterData) : bool :=
  match m with
  | USER_AND_PASS | ONLY_USER => true
  | _ => false
  end.

Definition entity_index (e : entity) : nat :=
  match e with
  | CommandOutput => 0 | Credential => 1 | Host => 2 | Mission => 3
  | Option => 4 | Product => 5 | Result => 6 | Service => 7 | Vuln => 8
  end.

Definition column_eqb (c d : column) : bool :=
  match c, d with
  | Col e a, Col f b =>
      (Nat.eqb (entity_index e) (entity_index f) && String.eqb a b)%bool
  end.

Definition lookup_column (c : column) (table : list (column * FilterData))
  : option FilterData :=
  option_map snd (find (fun entry => column_eqb c (fst entry)) table).

(** The columns of the LIKE filters, each with the kind that filters on it. *)
Definition substring_columns : list (column * FilterData) :=
  [ (Col Host "hostname", HOST); (Col Service "name", SERVICE);
    (Col Host "os", OS); (Col Host "os_family", OS_FAMILY);
    (Col Service "banner", BANNER); (Col Service "url", URL);
    (Col Service "html_title", HTML_TITLE);
    (Col Service "http_headers", HTTP_HEADERS);
    (Col Credential "username", USERNAME);
    (Col Credential "password", PASSWORD);
    (Col Credential "type", AUTH_TYPE);
    (Col Service "comment", COMMENT_SERVICE);
    (Col Host "comment", COMMENT_HOST);
    (Col Credential "comment", COMMENT_CRED);
    (Col Mission "comment", COMMENT_MISSION);
    (Col Mission "name", MISSION); (Col Result "check", CHECK_NAME);
    (Col CommandOutput "output", COMMAND_OUTPUT); (Col Vuln "name", VULN);
    (Col Option "name", OPTION_NAME); (Col Option "value", OPTION_VALUE);
    (Col Product "type", PRODUCT_TYPE); (Col Product "name", PRODUCT_NAME);
    (Col Product "version", PRODUCT_VERSION) ].

(** The columns of the equality filters on a value. *)
Definition equality_columns : list (column * FilterData) :=
  [ (Col Host "ip", IP); (Col Service "port", PORT); (Col Service "up", UP);
    (Col Service "name", SERVICE_EXACT); (Col Service "id", SERVICE_ID);
    (Col Service "url", URL_EXACT); (Col Mission "name", MISSION_EXACT);
    (Col Result "id", CHECK_ID) ].

(** The kind whose comparator builds a filter of the shape of [p]. *)
Definition kind_of_filter (p : Predicate) : option FilterData :=
  match p with
  | ilike c _ => lookup_column c substring_columns
  | __eq__ c (Val _) => lookup_column c equality_columns
  | __eq__ _ (Enum _) => Some PROTOCOL
  | is_in_ip_range _ => Some IP
  | between _ _ _ => Some PORT
  | and_ _ (isnot _ _) => Some USER_AND_PASS
  | and_ _ (is_ _ _) => Some ONLY_USER
  | not_ _ => Some UNSCANNED
  | _ => None
  end.

(** The kinds whose comparator uses its value through [str(value)] only,
    or not at all. *)
Definition through_str (m : FilterData) : bool :=
  match m with
  | IP | PORT | PROTOCOL | UP | SERVICE_EXACT | SERVICE_ID | MISSION_EXACT
  | CHECK_ID | USER_AND_PASS | ONLY_USER => false
  | _ => true
  end.

(** The filters that a nest of ORs joins, from left to right. *)
Fixpoint or_leaves (p : Predicate) : list Predicate :=
  match p with
  | or_ a b => or_leaves a ++ or_leaves b
  | _ => [p]
  end.

Definition leaves (r : option Predicate) : list Predicate :=
  match r with
  | Some p => or_leaves p
  | None => []
  end.

(** The OR of a list of truth values. *)
Definition truth_any (ts : list truth) : truth := fold_right truth_or FALSE ts.

(** Reading the result of [translate]; the OR of no filter is [FALSE]. *)
Definition holds_any (is_null : column -> bool) (compare : Predicate -> truth)
  (r : option Predicate) : truth :=
  match r with
  | Some p => holds is_null compare p
  | None => FALSE
  end.

End Kinds.

(* ====================================================================== *)
(** * Letter case in matching *)
(* ====================================================================== *)

Section IgnoreCase.

Import Py Re.

Lemma lower_char_idem (c : ascii) : lower_char (lower_char c) = lower_char c.
Proof. destruct c as [[] [] [] [] [] [] [] []]; reflexivity. Qed.

Lemma isspace_lower (c : ascii) : isspace (lower_char c) = isspace c.
Proof. destruct c as [[] [] [] [] [] [] [] []]; reflexivity. Qed.

Lemma length_lower (s : string) :
  String.length (lower_str s) = String.length s.
Proof. induction s; simpl; congruence. Qed.

Lemma flat_map_lower (f : pos -> list pos) (l : list pos) :
  (forall st, f (lower_pos st) = map lower_pos (f st)) ->
  flat_map f (map lower_pos l) = map lower_pos (flat_map f l).
Proof.
  intros Hf. induction l as [|st l IH]; simpl; [reflexivity|].
  now rewrite map_app, Hf, IH.
Qed.

Lemma star_loop_lower (step : pos -> list pos) :
  (forall st, step (lower_pos st) = map lower_pos (step st)) ->
  forall fuel st,
    star_loop step fuel (lower_pos st) = map lower_pos (star_loop step fuel st).
Proof.
  intros Hstep. induction fuel as [|fuel IH]; intros st; simpl; [reflexivity|].
  rewrite map_app, Hstep. simpl. f_equal.
  rewrite length_lower.
  induction (step st) as [|st' l IHl]; simpl; [reflexivity|].
  rewrite map_app, IHl, length_lower. f_equal.
  destruct (Nat.ltb _ _); [apply IH | reflexivity].
Qed.

(** Putting the subject in lower case changes no step of the matcher. *)
Lemma run_lower (r : regex) :
  forall st, run r (lower_pos st) = map lower_pos (run r st).
Proof.
  induction r as [| |c| |r1 IH1 r2 IH2|r IH|r IH]; intros [b s]; simpl.
  - reflexivity.
  - now destruct b.
  - destruct s as [|d s]; simpl; [reflexivity|].
    rewrite lower_char_idem. now destruct (Ascii.eqb _ _).
  - destruct s as [|d s]; simpl; [reflexivity|].
    rewrite isspace_lower. now destruct (isspace d).
  - rewrite (IH1 (b, s)). now apply flat_map_lower.
  - now rewrite map_app, (IH (b, s)).
  - rewrite length_lower.
    now apply (star_loop_lower _ IH (String.length s) (b, s)).
Qed.

Lemma matches_lower (r : regex) (s : string) :
  matches r (lower_str s) = matches r s.
Proof.
  unfold matches.
  change (true, lower_str s) with (lower_pos (true, s)).
  rewrite run_lower. now destruct (run r (true, s)).
Qed.

(** Two subjects that differ in letter case only match the same patterns. *)
Lemma match_ignorecase_case (pattern s t : string) :
  lower_str s = lower_str t ->
  match_ignorecase pattern s = match_ignorecase pattern t.
Proof.
  intros H. unfold match_ignorecase.
  destruct (compile pattern) as [r|]; [|reflexivity].
  now rewrite <- (matches_lower r s), <- (matches_lower r t), H.
Qed.

End IgnoreCase.

(* ====================================================================== *)
(** * Properties of [get_service_name] *)
(* ====================================================================== *)

Section ServiceNames.

Import Config.

(** Every pattern of the table lies in the modelled fragment of [re]. *)
Lemma patterns_compile :
  Forall (fun item => Re.compile (fst item) <> None) SERVICE_NAME_MATCHING.
Proof.
  unfold SERVICE_NAME_MATCHING.
  repeat (constructor; [vm_compute; discriminate|]).
  constructor.
Qed.

(** The keys of the dictionary are pairwise distinct, so that looking a
    pattern up yields the name written next to it. *)
Lemma patterns_distinct : NoDup (map fst SERVICE_NAME_MATCHING).
Proof.
  unfold SERVICE_NAME_MATCHING; simpl.
  repeat (constructor;
          [ simpl; intros H;
            repeat (destruct H as [H | H]; [discriminate H|]); exact H |]).
  constructor.
Qed.

(** The loop stops at the first item whose pattern matches. *)
Lemma for_pattern_first (items : list (string * string)) (s : string) :
  forall i pattern name,
    nth_error items i = Some (pattern, name) ->
    Re.match_ignorecase pattern s = true ->
    (forall j p n, (j < i)%nat -> nth_error items j = Some (p, n) ->
                   Re.match_ignorecase p s = false) ->
    for_pattern items s = name.
Proof.
  induction items as [|[p0 n0] rest IH]; intros i pattern name Hi Hm Hbefore.
  - destruct i; discriminate Hi.
  - destruct i as [|i]; simpl in *.
    + injection Hi as -> ->. now rewrite Hm.
    + rewrite (Hbefore 0%nat p0 n0); [|lia|reflexivity].
      apply (IH i pattern name Hi Hm).
      intros j p n Hj Hnth. apply (Hbefore (S j) p n); [lia|exact Hnth].
Qed.

(** Without a matching item the loop falls through. *)
Lemma for_pattern_none (items : list (string * string)) (s : string) :
  (forall p n, In (p, n) items -> Re.match_ignorecase p s = false) ->
  for_pattern items s = s.
Proof.
  induction items as [|[p0 n0] rest IH]; intros Hnone; simpl.
  - reflexivity.
  - rewrite (Hnone p0 n0) by (left; reflexivity).
    apply IH. intros p n Hin. apply (Hnone p n). now right.
Qed.

(** The result is a name of the table, or the argument itself. *)
Lemma for_pattern_cases (items : list (string * string)) (s : string) :
  In (for_pattern items s) (map snd items) \/ for_pattern items s = s.
Proof.
  induction items as [|[p0 n0] rest IH]; simpl.
  - now right.
  - destruct (Re.match_ignorecase p0 s).
    + left. now left.
    + destruct IH as [IH | IH]; [left; now right | now right].
Qed.

(** Each name of the table is mapped to itself. *)
Lemma canonical_fixed (s : string) :
  In s (map snd SERVICE_NAME_MATCHING) -> get_service_name s = s.
Proof.
  unfold SERVICE_NAME_MATCHING; simpl. intros H.
  repeat (destruct H as [H | H]; [subst s; vm_compute; reflexivity|]).
  contradiction.
Qed.

(** C8. [get_service_name] returns the name of the first item of the table
    whose pattern matches the argument, and the argument itself when no
    pattern matches; whether a pattern matches does not depend on the letter
    case of the argument.  So ["https-wmap"] gives
    ["http"], ["rdp-sec"] gives ["rdp"] (through the pattern [^rdp], the
    twelfth item) and ["foobar-proto"] is returned as it is. *)
Theorem get_service_name_first_match :
  (forall s i pattern name,
      nth_error SERVICE_NAME_MATCHING i = Some (pattern, name) ->
      Re.match_ignorecase pattern s = true ->
      (forall j p n, (j < i)%nat ->
                     nth_error SERVICE_NAME_MATCHING j = Some (p, n) ->
                     Re.match_ignorecase p s = false) ->
      get_service_name s = name)
  /\ (forall s,
         (forall p n, In (p, n) SERVICE_NAME_MATCHING ->
                      Re.match_ignorecase p s = false) ->
         get_service_name s = s)
  /\ (forall pattern s t,
         Py.lower_str s = Py.lower_str t ->
         Re.match_ignorecase pattern s = Re.match_ignorecase pattern t)
  /\ get_service_name "https-wmap" = "http"
  /\ get_service_name "HTTPS-Wmap" = "http"
  /\ get_service_name "rdp-sec" = "rdp"
  /\ get_service_name "foobar-proto" = "foobar-proto".
Proof.
  split; [|split; [|split]].
  - intros s. apply for_pattern_first.
  - intros s. apply for_pattern_none.
  - apply match_ignorecase_case.
  - repeat split; vm_compute; reflexivity.
Qed.

(** C9. On a name of the table, applying [get_service_name] twice gives the
    same result as applying it once. *)
Theorem get_service_name_idempotent_canonical (s : string) :
  In s (map snd Config.SERVICE_NAME_MATCHING) ->
  get_service_name (get_service_name s) = get_service_name s.
Proof.
  intros H. rewrite (canonical_fixed s H). apply (canonical_fixed s H).
Qed.

(** The same holds for every string, canonical or not. *)
Lemma get_service_name_idempotent (s : string) :
  get_service_name (get_service_name s) = get_service_name s.
Proof.
  destruct (for_pattern_cases SERVICE_NAME_MATCHING s) as [H | H];
    fold (get_service_name s) in H.
  - apply canonical_fixed, H.
  - now rewrite !H.
Qed.

End ServiceNames.

Lemma get_service_name_first_match_witness :
  Config.get_service_name "rdp-sec" = "rdp"
  /\ Config.get_service_name "foobar-proto" = "foobar-proto"
  /\ Re.match_ignorecase "^rdp" "RDP-Sec" = Re.match_ignorecase "^rdp" "rdp-sec".
Proof.
  split; [|split].
  - apply (proj1 get_service_name_first_match "rdp-sec" 11%nat "^rdp" "rdp").
    + reflexivity.
    + vm_compute. reflexivity.
    + intros j p n Hj Hnth.
      do 11 (destruct j as [|j];
             [injection Hnth as <- <-; vm_compute; reflexivity|]).
      lia.
  - apply (proj1 (proj2 get_service_name_first_match) "foobar-proto").
    intros p n Hin. unfold Config.SERVICE_NAME_MATCHING in Hin. simpl in Hin.
    repeat (destruct Hin as [Hin | Hin];
            [injection Hin as <- <-; vm_compute; reflexivity|]).
    contradiction.
  - apply (proj1 (proj2 (proj2 get_service_name_first_match))
             "^rdp" "RDP-Sec" "rdp-sec").
    reflexivity.
Defined.

Lemma get_service_name_idempotent_canonical_witness :
  Config.get_service_name (Config.get_service_name "java-rmi")
  = Config.get_service_name "java-rmi".
Proof.
  apply (get_service_name_idempotent_canonical "java-rmi").
  vm_compute. do 4 right. left. reflexivity.
Defined.

(* ====================================================================== *)
(** * Properties of [Condition.translate] *)
(* ====================================================================== *)

Section Translation.

Import Py Condition Sql.

Variable N : NetUtils.

(** ** The dispatch and the loop *)

Lemma mapping_member (m : FilterData) : recognized N (Member m).
Proof. destruct m; discriminate. Qed.

Lemma mapping_other (k : kind) : mapping N k = None -> exists tag, k = Other tag.
Proof.
  destruct k as [m | tag]; [|intros _; now exists tag].
  intros H. now destruct (mapping_member m).
Qed.

(** A single value is handed to the comparator of the kind, and the result
    of the comparator is the result of the call. *)
Lemma translate_single (k : kind) (v : pyval) :
  translate N (__init__ (Single v) k)
  = match mapping N k with
    | Some method_translate => method_translate v
    | None => Ok None
    end.
Proof.
  unfold translate; simpl. destruct (mapping N k) as [m|]; [|reflexivity].
  simpl. destruct (m v) as [[p|]|e]; reflexivity.
Qed.

(** When the comparator returns for every value, the loop returns the OR of
    what it has so far and of the filters returned, from first to last. *)
Lemma for_v_returns (m : pyval -> translated) (vs : list pyval)
  (rs : list (option Predicate)) :
  Forall2 (fun v r => m v = Ok r) vs rs ->
  forall result,
    for_v m vs result = Ok (or_all (opt_list result ++ non_null rs)).
Proof.
  induction 1 as [|v r vs rs Hv _ IH]; intros result.
  - simpl. rewrite app_nil_r. now destruct result.
  - simpl. rewrite Hv; simpl.
    destruct r as [t|]; destruct result as [a|]; rewrite IH; reflexivity.
Qed.

(** The first value on which the comparator raises ends the call with that
    exception. *)
Lemma for_v_raises (m : pyval -> translated) (before after : list pyval)
  (v : pyval) (e : exn) :
  Forall (fun u => exists r, m u = Ok r) before ->
  m v = Raise e ->
  forall result, for_v m (before ++ v :: after) result = Raise e.
Proof.
  induction 1 as [|u before [r Hu] _ IH]; intros Hv result; simpl.
  - now rewrite Hv.
  - rewrite Hu; simpl.
    destruct r as [t|]; destruct result as [a|]; now apply IH.
Qed.

Lemma translate_returns (k : kind) (m : pyval -> translated)
  (vs : list pyval) (rs : list (option Predicate)) :
  mapping N k = Some m ->
  Forall2 (fun v r => m v = Ok r) vs rs ->
  translate N (__init__ (Many vs) k) = Ok (or_all (non_null rs)).
Proof.
  intros Hk Hvs. unfold translate; simpl. rewrite Hk.
  now rewrite (for_v_returns m vs rs Hvs None).
Qed.

(** Reading an OR of filters: the OR of their truth values. *)
Lemma holds_fold_or (is_null : column -> bool) (compare : Predicate -> truth)
  (ps : list Predicate) :
  forall p,
    holds is_null compare (fold_left or_ ps p)
    = fold_left truth_or (map (holds is_null compare) ps)
        (holds is_null compare p).
Proof.
  induction ps as [|q ps IH]; intros p; simpl; [reflexivity|].
  now rewrite IH.
Qed.

Lemma translate_service_exact_ssh_ftp :
  translate N (__init__ (Many [VStr "ssh"; VStr "ftp"]) (Member SERVICE_EXACT))
  = Ok (Some (or_ (__eq__ (Col Service "name") (Val (VStr "ssh")))
                  (__eq__ (Col Service "name") (Val (VStr "ftp"))))).
Proof. reflexivity. Qed.

(** ** Ports *)

Lemma translate_port_single (v : pyval) (n : Z) :
  is_valid_port N v = true ->
  int v = Ok n ->
  translate N (__init__ (Single v) (Member PORT))
  = Ok (Some (__eq__ (Col Service "port") (Val (VInt n)))).
Proof.
  intros Hp Hn. rewrite translate_single; simpl.
  unfold __translate_port. now rewrite Hp, Hn.
Qed.

Lemma prefix_app (s t : string) : String.prefix s (s ++ t) = true.
Proof.
  induction s as [|a s IH]; simpl; [now destruct t|].
  now destruct (ascii_dec a a).
Qed.

Lemma translate_port_invalid (v : pyval) :
  is_valid_port N v = false ->
  is_valid_port_range N v = false ->
  translate N (__init__ (Single v) (Member PORT))
  = Raise (FilterException (str v ++ " invalid port/range")).
Proof.
  intros Hp Hr. rewrite translate_single; simpl.
  unfold __translate_port. now rewrite Hp, Hr.
Qed.

(** The range branch: two parts are unpacked, then the name [Sevrice] is
    looked up. *)
Lemma port_range_branch (s : string) :
  is_valid_port N (VStr s) = false ->
  is_valid_port_range N (VStr s) = true ->
  __translate_port N (VStr s)
  = match split_str "-" s with
    | [_; _] => Raise (NameError "Sevrice")
    | _ => Raise ValueError
    end.
Proof.
  intros Hp Hr. unfold __translate_port. rewrite Hp, Hr. simpl.
  destruct (split_str "-" s) as [|a [|b [|c l]]]; reflexivity.
Qed.

(** C1. A [min-max] value does not reach the range filter: the branch names
    [Sevrice], which nothing binds, and the call ends with [NameError]. *)
Theorem translate_port_range_raises (s : string) :
  is_valid_port N (VStr s) = false ->
  is_valid_port_range N (VStr s) = true ->
  List.length (split_str "-" s) = 2%nat ->
  translate N (__init__ (Single (VStr s)) (Member PORT))
  = Raise (NameError "Sevrice").
Proof.
  intros Hp Hr Hlen. rewrite translate_single; simpl.
  rewrite (port_range_branch s Hp Hr).
  destruct (split_str "-" s) as [|a [|b [|c l]]]; try discriminate Hlen.
  reflexivity.
Qed.

(** ** Identifiers *)

Lemma translate_id_numeric (s : string) (n : Z) :
  int_literal s = Some n ->
  translate N (__init__ (Single (VStr s)) (Member SERVICE_ID))
  = Ok (Some (__eq__ (Col Service "id") (Val (VInt n))))
  /\ translate N (__init__ (Single (VStr s)) (Member CHECK_ID))
     = Ok (Some (__eq__ (Col Result "id") (Val (VInt n)))).
Proof.
  intros H. rewrite !translate_single; simpl.
  unfold __translate_service_id, __translate_check_id. simpl.
  now rewrite H.
Qed.

(** C2. For a string that is not an integer literal, the two id comparators
    end with the [ValueError] of [int], not with a [FilterException]. *)
Theorem translate_id_non_numeric (s : string) :
  int_literal s = None ->
  translate N (__init__ (Single (VStr s)) (Member SERVICE_ID))
  = Raise ValueError
  /\ translate N (__init__ (Single (VStr s)) (Member CHECK_ID))
     = Raise ValueError.
Proof.
  intros H. rewrite !translate_single; simpl.
  unfold __translate_service_id, __translate_check_id. simpl.
  now rewrite H.
Qed.

(** ** Kinds without a comparator *)

(** C3. For a kind that has no entry in the mapping, [translate] returns
    [None] whatever the values are: it raises nothing, and no value is looked
    at, as there is no comparator to hand it to. *)
Theorem translate_unknown_kind (k : kind) (vs : list pyval) :
  mapping N k = None ->
  translate N {| value := vs; filtertype := k |} = Ok None
  /\ forall arg, translate N (__init__ arg k) = Ok None.
Proof.
  intros H. unfold translate; simpl. now rewrite H.
Qed.

(** ** OR of the values *)

(** C4. [PORT] is a recognized kind and ["8000-8100"] a value on which the
    comparator raises no [FilterException]; yet [translate] returns no OR of
    filters for it, since the comparator ends with [NameError]. *)
Theorem translate_or_fails_on_port_range :
  is_valid_port N (VStr "8000-8100") = false ->
  is_valid_port_range N (VStr "8000-8100") = true ->
  let c := __init__ (Many [VStr "8000-8100"]) (Member PORT) in
  mapping N (filtertype c) = Some (__translate_port N)
  /\ value c <> []
  /\ Forall (fun v => forall msg,
                 __translate_port N v <> Raise (FilterException msg))
       (value c)
  /\ translate N c = Raise (NameError "Sevrice")
  /\ forall p, translate N c <> Ok p.
Proof.
  intros Hp Hr c.
  assert (Hc : __translate_port N (VStr "8000-8100")
               = Raise (NameError "Sevrice")).
  { unfold __translate_port. now rewrite Hp, Hr. }
  assert (Ht : translate N c = Raise (NameError "Sevrice")).
  { unfold translate, c; simpl. now rewrite Hc. }
  repeat split.
  - discriminate.
  - constructor; [|constructor]. intros msg. rewrite Hc. discriminate.
  - exact Ht.
  - intros p. rewrite Ht. discriminate.
Qed.

(** ** No filter at all *)

(** C5. For a recognized kind, [translate] returns [None] for the empty
    sequence of values, and for every sequence on each value of which the
    comparator returns [None]. *)
Theorem translate_all_none (k : kind) (m : pyval -> translated)
  (vs : list pyval) :
  mapping N k = Some m ->
  translate N (__init__ (Many []) k) = Ok None
  /\ (Forall (fun v => m v = Ok None) vs ->
      translate N (__init__ (Many vs) k) = Ok None).
Proof.
  intros Hk. unfold translate; simpl. rewrite Hk. split; [reflexivity|].
  induction 1 as [|v vs Hv _ IH]; simpl; [reflexivity|].
  now rewrite Hv.
Qed.

(** ** Addresses *)

(** C6. An address accepted as an IP gives the equality filter on [Host.ip];
    one accepted as a range only gives the range filter; any other value
    raises [FilterException], with a message that starts with the value. *)
Theorem translate_ip_cases (v : pyval) :
  (is_valid_ip N v = true ->
   translate N (__init__ (Single v) (Member IP))
   = Ok (Some (__eq__ (Col Host "ip") (Val v))))
  /\ (is_valid_ip N v = false -> is_valid_ip_range N v = true ->
      translate N (__init__ (Single v) (Member IP))
      = Ok (Some (is_in_ip_range v)))
  /\ (is_valid_ip N v = false -> is_valid_ip_range N v = false ->
      exists msg,
        translate N (__init__ (Single v) (Member IP))
        = Raise (FilterException msg)
        /\ msg = str v ++ " invalid IP/range"
        /\ String.prefix (str v) msg = true).
Proof.
  rewrite translate_single; simpl. unfold __translate_ip.
  repeat split.
  - now intros ->.
  - now intros -> ->.
  - intros -> ->. eexists. repeat split. apply prefix_app.
Qed.

(** ** Credential flags *)

(** C7. For the two credential flags, [False] gives [None] and [True] gives
    a filter: username set and password set for the first, username set and
    password not set for the second. *)
Theorem translate_flags_bool :
  translate N (__init__ (Single (VBool false)) (Member USER_AND_PASS)) = Ok None
  /\ translate N (__init__ (Single (VBool false)) (Member ONLY_USER)) = Ok None
  /\ translate N (__init__ (Single (VBool true)) (Member USER_AND_PASS))
     = Ok (Some user_and_pass)
  /\ translate N (__init__ (Single (VBool true)) (Member ONLY_USER))
     = Ok (Some only_user)
  /\ (forall is_null compare,
         holds is_null compare user_and_pass
         = if (negb (is_null (Col Credential "username"))
               && negb (is_null (Col Credential "password")))%bool
           then TRUE else FALSE)
  /\ (forall is_null compare,
         holds is_null compare only_user
         = if (negb (is_null (Col Credential "username"))
               && is_null (Col Credential "password"))%bool
           then TRUE else FALSE).
Proof.
  repeat split; intros is_null compare; simpl;
    destruct (is_null (Col Credential "username"));
    destruct (is_null (Col Credential "password")); reflexivity.
Qed.

(** C10. The two flag comparators look at the truth value of their argument
    only: a true one, of whatever type, gives the filter, a false one gives
    [None], and neither raises. *)
Theorem translate_flags_truthiness (v : pyval) :
  (truthy v = true ->
   __translate_user_and_pass v = Ok (Some user_and_pass)
   /\ __translate_only_user v = Ok (Some only_user)
   /\ translate N (__init__ (Single v) (Member USER_AND_PASS))
      = Ok (Some user_and_pass)
   /\ translate N (__init__ (Single v) (Member ONLY_USER))
      = Ok (Some only_user))
  /\ (truthy v = false ->
      __translate_user_and_pass v = Ok None
      /\ __translate_only_user v = Ok None
      /\ translate N (__init__ (Single v) (Member USER_AND_PASS)) = Ok None
      /\ translate N (__init__ (Single v) (Member ONLY_USER)) = Ok None)
  /\ (forall e, __translate_user_and_pass v <> Raise e
                /\ __translate_only_user v <> Raise e).
Proof.
  rewrite !translate_single; simpl.
  unfold __translate_user_and_pass, __translate_only_user.
  destruct (truthy v); repeat split; try discriminate; reflexivity.
Qed.

End Translation.

(* ====================================================================== *)
(** * With the syntaxes named by the spec *)
(* ====================================================================== *)

Section SpecSyntax.

Import Py Condition SpecNetUtils.

Lemma digit_not_space (c : ascii) : digit c = true -> int_space c = false.
Proof.
  destruct c as [[] [] [] [] [] [] [] []]; simpl; intros H;
    try discriminate H; reflexivity.
Qed.

Lemma int_digits_all (s : string) :
  forallb digit (list_ascii_of_string s) = true ->
  forall acc after_digit,
    s <> EmptyString \/ after_digit = true ->
    exists n, int_digits s acc after_digit = Some n.
Proof.
  induction s as [|c s IH]; simpl; intros Hs acc b Hb.
  - destruct Hb as [Hb | ->]; [now destruct Hb | eauto].
  - apply andb_prop in Hs as [Hc Hs].
    unfold digit_of. rewrite Hc. apply IH; auto.
Qed.

Lemma rstrip_digits (s : string) :
  forallb digit (list_ascii_of_string s) = true -> rstrip s = s.
Proof.
  induction s as [|c s IH]; simpl; [reflexivity|]. intros Hs.
  apply andb_prop in Hs as [Hc Hs]. rewrite (IH Hs).
  destruct s; [now rewrite (digit_not_space c Hc) | reflexivity].
Qed.

(** [int] accepts every string of digits. *)
Lemma all_digits_int (s : string) :
  all_digits s = true -> exists n, int (VStr s) = Ok n.
Proof.
  unfold all_digits. intros H. apply andb_prop in H as [Hne Hs].
  destruct s as [|c s]; [discriminate Hne|].
  assert (Hstrip : rstrip (lstrip (String c s)) = String c s).
  { pose proof Hs as Hs'. simpl in Hs'. apply andb_prop in Hs' as [Hc _].
    simpl. rewrite (digit_not_space c Hc). now apply rstrip_digits. }
  destruct (int_digits_all (String c s) Hs 0 false) as [n Hn];
    [left; discriminate|].
  exists n. simpl. unfold int_literal. rewrite Hstrip.
  simpl in Hs. apply andb_prop in Hs as [Hc _].
  destruct c as [[] [] [] [] [] [] [] []]; try discriminate Hc; now rewrite Hn.
Qed.

Lemma split_str_cons (sep : ascii) (s : string) :
  exists h t, split_str sep s = h :: t.
Proof.
  induction s as [|c s [h [t IH]]]; simpl; [eauto|].
  destruct (Ascii.eqb c sep); [eauto|]. rewrite IH. eauto.
Qed.

(** The characters of a string are those of its parts, and the separator. *)
Lemma split_parts_chars (P : ascii -> bool) (sep : ascii) (s : string) :
  forallb (fun part => forallb P (list_ascii_of_string part))
    (split_str sep s) = true ->
  forallb (fun c => (P c || Ascii.eqb c sep)%bool) (list_ascii_of_string s)
  = true.
Proof.
  induction s as [|c s IH]; simpl; [reflexivity|].
  destruct (Ascii.eqb c sep) eqn:Hc; simpl.
  - rewrite orb_true_r. exact IH.
  - destruct (split_str_cons sep s) as [h [t Hsplit]]. rewrite Hsplit in *.
    simpl in *. intros H.
    apply andb_prop in H as [H1 H2]. apply andb_prop in H1 as [-> H1].
    simpl. apply IH. now rewrite H1, H2.
Qed.

(** A string that splits in two parts or more holds the separator. *)
Lemma split_has_sep (sep : ascii) (s : string) :
  (2 <= List.length (split_str sep s))%nat -> has_char sep s = true.
Proof.
  unfold has_char. induction s as [|c s IH]; simpl; [lia|].
  rewrite (Ascii.eqb_sym sep c).
  destruct (Ascii.eqb c sep); simpl; [reflexivity|].
  destruct (split_str_cons sep s) as [h [t Hsplit]]. rewrite Hsplit in *.
  exact IH.
Qed.

Lemma forallb_has_char (P : ascii -> bool) (c : ascii) (s : string) :
  forallb P (list_ascii_of_string s) = true ->
  has_char c s = true -> P c = true.
Proof.
  unfold has_char.
  induction (list_ascii_of_string s) as [|d l IH]; simpl; [discriminate|].
  intros H1 H2. apply andb_prop in H1 as [Hd Hl].
  destruct (Ascii.eqb c d) eqn:Hcd; [|now apply IH].
  apply Ascii.eqb_eq in Hcd. now subst.
Qed.

Lemma at_most_digits (bound : Z) (s : string) :
  at_most bound s = true -> forallb digit (list_ascii_of_string s) = true.
Proof.
  unfold at_most, all_digits. destruct (int_digits s 0 false); [|discriminate].
  intros H. apply andb_prop in H as [H _]. now apply andb_prop in H as [_ H].
Qed.

(** No string is both a CIDR range and a dotted quad. *)
Lemma cidr_not_dotted_quad (s : string) :
  cidr s = true -> dotted_quad s = false.
Proof.
  unfold cidr. intros Hcidr.
  assert (Hslash : has_char "/" s = true).
  { apply split_has_sep.
    destruct (split_str "/" s) as [|a [|b [|c l]]]; try discriminate Hcidr.
    simpl. lia. }
  destruct (dotted_quad s) eqn:Hquad; [|reflexivity].
  unfold dotted_quad in Hquad.
  assert (Hparts : forallb (fun part => forallb digit (list_ascii_of_string part))
                     (split_str "." s) = true).
  { destruct (split_str "." s) as [|a [|b [|c [|d [|e l]]]]];
      try discriminate Hquad.
    simpl in Hquad. rewrite !andb_true_r in Hquad.
    repeat (apply andb_prop in Hquad as [? Hquad]).
    simpl. now rewrite !(at_most_digits 255) by assumption. }
  apply split_parts_chars in Hparts.
  pose proof (forallb_has_char _ "/" s Hparts Hslash) as H. discriminate H.
Qed.

(** No string is both a [min-max] range and a string of digits. *)
Lemma min_max_not_digits (s : string) :
  min_max s = true -> all_digits s = false.
Proof.
  unfold min_max. intros Hrange.
  assert (Hdash : has_char "-" s = true).
  { apply split_has_sep.
    destruct (split_str "-" s) as [|a [|b [|c l]]]; try discriminate Hrange.
    simpl. lia. }
  destruct (all_digits s) eqn:Hdigits; [|reflexivity].
  unfold all_digits in Hdigits. apply andb_prop in Hdigits as [_ Hdigits].
  pose proof (forallb_has_char _ "-" s Hdigits Hdash) as H. discriminate H.
Qed.

(** A string of digits gives the equality filter on [Service.port]. *)
Lemma spec_port_single (s : string) :
  all_digits s = true ->
  exists n,
    int (VStr s) = Ok n
    /\ translate net_utils (__init__ (Single (VStr s)) (Member PORT))
       = Ok (Some (__eq__ (Col Service "port") (Val (VInt n)))).
Proof.
  intros H. destruct (all_digits_int s H) as [n Hn]. exists n.
  split; [exact Hn|]. now apply translate_port_single.
Qed.

(** Every [min-max] string ends in [NameError]. *)
Lemma spec_port_range_raises (s : string) :
  min_max s = true ->
  translate net_utils (__init__ (Single (VStr s)) (Member PORT))
  = Raise (NameError "Sevrice").
Proof.
  intros H. rewrite translate_single; simpl.
  rewrite port_range_branch;
    [|exact (min_max_not_digits s H) | exact H].
  unfold min_max in H.
  destruct (split_str "-" s) as [|a [|b [|c l]]]; try discriminate H.
  reflexivity.
Qed.

(** A CIDR range gives the range filter. *)
Lemma spec_ip_range (s : string) :
  cidr s = true ->
  translate net_utils (__init__ (Single (VStr s)) (Member IP))
  = Ok (Some (is_in_ip_range (VStr s))).
Proof.
  intros H. rewrite translate_single; simpl. unfold __translate_ip; simpl.
  now rewrite (cidr_not_dotted_quad s H), H.
Qed.

End SpecSyntax.

(* ====================================================================== *)
(** * The properties at concrete inputs *)
(* ====================================================================== *)

Section Instances.

Import Py Condition Sql.

Lemma translate_port_range_raises_witness :
  translate SpecNetUtils.net_utils
    (__init__ (Single (VStr "8000-8100")) (Member PORT))
  = Raise (NameError "Sevrice").
Proof.
  apply (translate_port_range_raises SpecNetUtils.net_utils "8000-8100");
    reflexivity.
Defined.

Lemma translate_id_non_numeric_witness :
  translate SpecNetUtils.net_utils
    (__init__ (Single (VStr "abc")) (Member SERVICE_ID))
  = Raise ValueError
  /\ translate SpecNetUtils.net_utils
       (__init__ (Single (VStr "abc")) (Member CHECK_ID))
     = Raise ValueError.
Proof.
  apply (translate_id_non_numeric SpecNetUtils.net_utils "abc").
  reflexivity.
Defined.

Lemma translate_unknown_kind_witness :
  translate SpecNetUtils.net_utils
    {| value := [VStr "abc"; VBool true; VStr "1.2.3.4"];
       filtertype := Other 0 |}
  = Ok None.
Proof.
  apply (translate_unknown_kind SpecNetUtils.net_utils (Other 0)
           [VStr "abc"; VBool true; VStr "1.2.3.4"]).
  reflexivity.
Defined.

Lemma translate_or_fails_on_port_range_witness :
  translate SpecNetUtils.net_utils
    (__init__ (Many [VStr "8000-8100"]) (Member PORT))
  = Raise (NameError "Sevrice").
Proof.
  apply (translate_or_fails_on_port_range SpecNetUtils.net_utils);
    reflexivity.
Defined.

Lemma translate_all_none_witness :
  translate SpecNetUtils.net_utils (__init__ (Many []) (Member ONLY_USER))
  = Ok None
  /\ translate SpecNetUtils.net_utils
       (__init__ (Many [VBool false; VInt 0; VStr EmptyString; VNone])
          (Member ONLY_USER))
     = Ok None.
Proof.
  pose proof (translate_all_none SpecNetUtils.net_utils (Member ONLY_USER)
                __translate_only_user
                [VBool false; VInt 0; VStr EmptyString; VNone] eq_refl)
    as [Hempty Hnone].
  split; [exact Hempty|].
  apply Hnone. repeat constructor.
Defined.

Lemma translate_ip_cases_witness :
  translate SpecNetUtils.net_utils
    (__init__ (Single (VStr "10.0.0.1")) (Member IP))
  = Ok (Some (__eq__ (Col Host "ip") (Val (VStr "10.0.0.1"))))
  /\ translate SpecNetUtils.net_utils
       (__init__ (Single (VStr "10.0.0.0/24")) (Member IP))
     = Ok (Some (is_in_ip_range (VStr "10.0.0.0/24")))
  /\ translate SpecNetUtils.net_utils
       (__init__ (Single (VStr "10.0.0.1/33")) (Member IP))
     = Raise (FilterException "10.0.0.1/33 invalid IP/range").
Proof.
  split; [|split].
  - apply (proj1 (translate_ip_cases SpecNetUtils.net_utils
                    (VStr "10.0.0.1"))).
    reflexivity.
  - apply (proj1 (proj2 (translate_ip_cases SpecNetUtils.net_utils
                           (VStr "10.0.0.0/24")))); reflexivity.
  - destruct (proj2 (proj2 (translate_ip_cases SpecNetUtils.net_utils
                              (VStr "10.0.0.1/33"))) eq_refl eq_refl)
      as [msg [Hraise [Hmsg _]]].
    rewrite Hraise, Hmsg. reflexivity.
Defined.

Lemma translate_flags_truthiness_witness :
  (__translate_user_and_pass (VStr "false") = Ok (Some user_and_pass)
   /\ __translate_only_user (VInt 1) = Ok (Some only_user))
  /\ (__translate_user_and_pass (VInt 0) = Ok None
      /\ __translate_only_user (VStr EmptyString) = Ok None
      /\ __translate_only_user VNone = Ok None).
Proof.
  split; [split | split; [|split]].
  - apply (proj1 (translate_flags_truthiness SpecNetUtils.net_utils
                    (VStr "false"))). reflexivity.
  - apply (proj1 (translate_flags_truthiness SpecNetUtils.net_utils
                    (VInt 1))). reflexivity.
  - apply (proj1 (proj2 (translate_flags_truthiness SpecNetUtils.net_utils
                           (VInt 0)))). reflexivity.
  - apply (proj1 (proj2 (translate_flags_truthiness SpecNetUtils.net_utils
                           (VStr EmptyString)))). reflexivity.
  - apply (proj1 (proj2 (translate_flags_truthiness SpecNetUtils.net_utils
                           VNone))). reflexivity.
Defined.

End Instances.

(* ====================================================================== *)
(** * Further properties of [get_service_name] *)
(* ====================================================================== *)

Section MoreServiceNames.

Import Py Re Config Names.

Lemma lower_str_idem (s : string) : lower_str (lower_str s) = lower_str s.
Proof.
  induction s as [|c s IH]; simpl; [reflexivity|].
  now rewrite lower_char_idem, IH.
Qed.

Lemma for_pattern_split (items : list (string * string)) (s : string) :
  (exists i pattern,
      nth_error items i = Some (pattern, for_pattern items s)
      /\ match_ignorecase pattern s = true
      /\ forall j p n, (j < i)%nat -> nth_error items j = Some (p, n) ->
                       match_ignorecase p s = false)
  \/ (for_pattern items s = s
      /\ forall p n, In (p, n) items -> match_ignorecase p s = false).
Proof.
  induction items as [|[p0 n0] rest IH]; simpl.
  - right. split; [reflexivity | intros p n []].
  - destruct (match_ignorecase p0 s) eqn:Hm.
    + left. exists 0%nat, p0. repeat split; [exact Hm|]. intros j p n Hj. lia.
    + destruct IH as [[i [p [Hnth [Hp Hbefore]]]] | [Hs Hnone]].
      * left. exists (S i), p. repeat split; [exact Hnth | exact Hp |].
        intros [|j] q n Hj Hq; simpl in Hq.
        -- now injection Hq as <- <-.
        -- apply (Hbefore j q n); [lia | exact Hq].
      * right. split; [exact Hs|].
        intros p n [Heq | Hin];
          [now injection Heq as <- <- | now apply (Hnone p n)].
Qed.

(** X2. Whatever the argument, either [get_service_name] returns the name
    of an item of the table whose pattern matches the argument and is the
    first to do so, or no pattern of the table matches and the argument is
    returned as it is. *)
Theorem get_service_name_dichotomy (s : string) :
  (exists i pattern,
      nth_error SERVICE_NAME_MATCHING i = Some (pattern, get_service_name s)
      /\ match_ignorecase pattern s = true
      /\ forall j p n, (j < i)%nat ->
                       nth_error SERVICE_NAME_MATCHING j = Some (p, n) ->
                       match_ignorecase p s = false)
  \/ (get_service_name s = s
      /\ forall p n, In (p, n) SERVICE_NAME_MATCHING ->
                     match_ignorecase p s = false).
Proof. apply for_pattern_split. Qed.

(** X1. [get_service_name] is idempotent on every string: a result is
    never renamed by a second call. *)
Theorem get_service_name_idempotent_everywhere (s : string) :
  get_service_name (get_service_name s) = get_service_name s.
Proof.
  destruct (for_pattern_cases SERVICE_NAME_MATCHING s) as [H | H];
    fold (get_service_name s) in H.
  - apply canonical_fixed, H.
  - now rewrite !H.
Qed.

Lemma for_pattern_case (items : list (string * string)) (s t : string) :
  lower_str s = lower_str t ->
  for_pattern items s = for_pattern items t
  \/ (for_pattern items s = s /\ for_pattern items t = t
      /\ forall p n, In (p, n) items ->
                     match_ignorecase p s = false
                     /\ match_ignorecase p t = false).
Proof.
  intros H. induction items as [|[p0 n0] rest IH]; simpl.
  - right. split; [reflexivity|]. split; [reflexivity|]. intros p n [].
  - pose proof (match_ignorecase_case p0 s t H) as Hp0. rewrite Hp0.
    destruct (match_ignorecase p0 t) eqn:Ht; [now left|].
    destruct IH as [IH | [Hs [Ht' Hnone]]]; [now left|].
    right. split; [exact Hs|]. split; [exact Ht'|].
    intros p n [Heq | Hin].
    + injection Heq as <- <-. now split.
    + now apply (Hnone p n).
Qed.

(** X3. Two names that differ in letter case only are treated alike: they
    get the same result, or no pattern matches either of them and each is
    returned as it is. *)
Theorem get_service_name_ignores_case (s t : string) :
  lower_str s = lower_str t ->
  get_service_name s = get_service_name t
  \/ (get_service_name s = s /\ get_service_name t = t
      /\ forall p n, In (p, n) SERVICE_NAME_MATCHING ->
                     match_ignorecase p s = false
                     /\ match_ignorecase p t = false).
Proof. apply for_pattern_case. Qed.

(** X4. Nothing is stripped from the argument: the empty name, and every
    name that starts with a blank character, is returned as it is. *)
Theorem get_service_name_blank_first :
  get_service_name EmptyString = EmptyString
  /\ forall c s, isspace c = true ->
                 get_service_name (String c s) = String c s.
Proof.
  split; [reflexivity|]. intros c s H.
  destruct c as [[] [] [] [] [] [] [] []]; try discriminate H;
    vm_compute; reflexivity.
Qed.

Lemma star_loop_ends (step : pos -> list pos) (fuel : nat) (st : pos) :
  exists l, star_loop step fuel st = (l ++ [st])%list.
Proof.
  destruct fuel as [|fuel]; simpl; [now exists [] | eauto].
Qed.

Lemma star_loop_nonempty (step : pos -> list pos) (fuel : nat) (st : pos) :
  star_loop step fuel st <> [].
Proof.
  destruct (star_loop_ends step fuel st) as [l ->]. now destruct l.
Qed.

Lemma flat_map_nonempty (f : pos -> list pos) (l : list pos) (st : pos) :
  In st l -> f st <> [] -> flat_map f l <> [].
Proof.
  induction l as [|a l IH]; simpl; [intros []|].
  intros [-> | Hin] Hf; [now destruct (f st) | ].
  destruct (f a); [now apply IH | discriminate].
Qed.

Lemma length_append (a b : string) :
  String.length (a ++ b) = (String.length a + String.length b)%nat.
Proof. induction a as [|c a IH]; simpl; [reflexivity | now rewrite IH]. Qed.

(** [\S*] can stop after any run of non-blank characters. *)
Lemma star_reach (a : string) :
  forall (rest : string) (start : bool) (fuel : nat),
    forallb nonspace (list_ascii_of_string a) = true ->
    (String.length (a ++ rest) <= fuel)%nat ->
    exists flag,
      In (flag, rest) (star_loop (run NonSpace) fuel (start, a ++ rest)).
Proof.
  induction a as [|c a IH]; intros rest start fuel Ha Hfuel.
  - exists start. change (EmptyString ++ rest) with rest.
    destruct (star_loop_ends (run NonSpace) fuel (start, rest)) as [l ->].
    apply in_or_app. right. now left.
  - simpl in Ha. apply andb_prop in Ha as [Hc Ha].
    change (String c a ++ rest) with (String c (a ++ rest)) in *.
    destruct fuel as [|fuel]; [simpl in Hfuel; lia|].
    destruct (IH rest false fuel Ha) as [flag Hin]; [simpl in Hfuel; lia|].
    exists flag.
    unfold nonspace in Hc. apply negb_true_iff in Hc.
    cbn [star_loop]. apply in_or_app. left.
    assert (Hstep : run NonSpace (start, String c (a ++ rest))
                    = [(false, a ++ rest)]).
    { cbn [run snd]. now rewrite Hc. }
    rewrite Hstep. cbn [flat_map snd]. apply in_or_app. left.
    assert (Hlt : (String.length (a ++ rest)
                   <? String.length (String c (a ++ rest)))%nat = true).
    { apply Nat.ltb_lt. simpl. lia. }
    rewrite Hlt. exact Hin.
Qed.

Lemma matches_accepts (r : regex) (s : string) :
  run r (true, s) <> [] -> matches r s = true.
Proof. unfold matches. now destruct (run r (true, s)). Qed.

Lemma run_seq_nonempty (r1 r2 : regex) (st st' : pos) :
  In st' (run r1 st) -> run r2 st' <> [] -> run (Seq r1 r2) st <> [].
Proof. intros Hin Hr2. cbn [run]. exact (flat_map_nonempty _ _ st' Hin Hr2). Qed.

Lemma run_tail_nonempty (st : pos) : run (Seq (Star NonSpace) Eps) st <> [].
Proof.
  cbn [run].
  destruct (star_loop_ends (run NonSpace) (String.length (snd st)) st) as [l Hl].
  apply (flat_map_nonempty _ _ st); [|discriminate].
  cbn [run] in Hl. rewrite Hl. apply in_or_app. right. now left.
Qed.

(** One literal of the pattern against one character of the subject. *)
Ltac literal_step :=
  eapply run_seq_nonempty; [cbv; left; reflexivity|].

(** The pattern [^ftp\S*] matches everything that starts with [ftp]. *)
Lemma match_ftp (t : string) :
  match_ignorecase "^ftp\S*" ("ftp" ++ t) = true.
Proof.
  unfold match_ignorecase.
  let c := eval vm_compute in (compile "^ftp\S*") in
  change (compile "^ftp\S*") with c.
  apply matches_accepts.
  change ("ftp" ++ t) with (String "f" (String "t" (String "p" t))).
  do 4 literal_step. apply run_tail_nonempty.
Qed.

Lemma match_ajp (t : string) :
  match_ignorecase "^ajp\S*" ("ajp" ++ t) = true.
Proof.
  unfold match_ignorecase.
  let c := eval vm_compute in (compile "^ajp\S*") in
  change (compile "^ajp\S*") with c.
  apply matches_accepts.
  change ("ajp" ++ t) with (String "a" (String "j" (String "p" t))).
  do 4 literal_step. apply run_tail_nonempty.
Qed.

(** The pattern [^\S*http\S*] matches everything that has [http] after
    non-blank characters only. *)
Lemma match_http (a b : string) :
  forallb nonspace (list_ascii_of_string a) = true ->
  match_ignorecase "^\S*http\S*" (a ++ "http" ++ b) = true.
Proof.
  intros Ha. unfold match_ignorecase.
  let c := eval vm_compute in (compile "^\S*http\S*") in
  change (compile "^\S*http\S*") with c.
  apply matches_accepts.
  eapply run_seq_nonempty; [left; reflexivity|].
  destruct (star_reach a ("http" ++ b) true
              (String.length (a ++ "http" ++ b)) Ha) as [flag Hin]; [lia|].
  eapply run_seq_nonempty; [exact Hin|].
  change ("http" ++ b) with (String "h" (String "t" (String "t" (String "p" b)))).
  do 4 literal_step. apply run_tail_nonempty.
Qed.

(** A rule applies to [s] as soon as it is the first to match a string that
    differs from [s] in letter case only. *)
Lemma rule_applies (s t : string) (i : nat) (pattern name : string) :
  lower_str s = lower_str t ->
  nth_error SERVICE_NAME_MATCHING i = Some (pattern, name) ->
  match_ignorecase pattern t = true ->
  (forall j p n, (j < i)%nat ->
                 nth_error SERVICE_NAME_MATCHING j = Some (p, n) ->
                 match_ignorecase p t = false) ->
  get_service_name s = name.
Proof.
  intros Hcase Hnth Hm Hbefore.
  apply (for_pattern_first SERVICE_NAME_MATCHING s i pattern name Hnth).
  - now rewrite (match_ignorecase_case pattern s t Hcase).
  - intros j p n Hj Hp. rewrite (match_ignorecase_case p s t Hcase).
    now apply (Hbefore j p n).
Qed.

(** X5. The first two items win over all the others: a name that starts
    with [ajp], resp. [ftp], in any letter case is named ["ajp"], resp.
    ["ftp"], whatever follows, be it the name of another service. *)
Theorem get_service_name_ajp_ftp_first (s t : string) :
  (lower_str s = "ajp" ++ t -> get_service_name s = "ajp")
  /\ (lower_str s = "ftp" ++ t -> get_service_name s = "ftp").
Proof.
  split; intros H.
  - apply (rule_applies s ("ajp" ++ t) 0 "^ajp\S*" "ajp").
    + now rewrite <- H, lower_str_idem.
    + reflexivity.
    + apply match_ajp.
    + intros j p n Hj. lia.
  - apply (rule_applies s ("ftp" ++ t) 1 "^ftp\S*" "ftp").
    + now rewrite <- H, lower_str_idem.
    + reflexivity.
    + apply match_ftp.
    + intros j p n Hj Hnth. destruct j as [|j]; [|lia].
      injection Hnth as <- <-. vm_compute. reflexivity.
Qed.

(** X6. A name that has [http], in any letter case, after non-blank
    characters only is named ["http"], unless one of the two items before
    the HTTP one names it ["ajp"] or ["ftp"]. *)
Theorem get_service_name_http_inside (s a b : string) :
  lower_str s = a ++ "http" ++ b ->
  forallb nonspace (list_ascii_of_string a) = true ->
  get_service_name s = "http"
  \/ get_service_name s = "ajp" \/ get_service_name s = "ftp".
Proof.
  intros Hs Ha.
  assert (Hcase : lower_str s = lower_str (a ++ "http" ++ b))
    by now rewrite <- Hs, lower_str_idem.
  pose proof (match_http a b Ha) as Hhttp.
  rewrite <- (match_ignorecase_case _ s _ Hcase) in Hhttp.
  unfold get_service_name, SERVICE_NAME_MATCHING. cbn [for_pattern].
  destruct (match_ignorecase "^ajp\S*" s); [now right; left|].
  destruct (match_ignorecase "^ftp\S*" s); [now right; right|].
  rewrite Hhttp. now left.
Qed.


(** X7. No item of the table is shadowed by the items before it: for each
    one there is a name that its pattern is the first to match, and that
    [get_service_name] therefore maps to the name of the item. *)
Theorem every_rule_fires (i : nat) (pattern name : string) :
  nth_error SERVICE_NAME_MATCHING i = Some (pattern, name) ->
  exists s,
    nth_error samples i = Some s
    /\ match_ignorecase pattern s = true
    /\ (forall j p n, (j < i)%nat ->
                      nth_error SERVICE_NAME_MATCHING j = Some (p, n) ->
                      match_ignorecase p s = false)
    /\ get_service_name s = name.
Proof.
  intros Hnth.
  do 19 (destruct i as [|i];
         [ injection Hnth as <- <-; eexists; split; [reflexivity|];
           split; [vm_compute; reflexivity|];
           split; [|vm_compute; reflexivity];
           intros j p n Hj Hp;
           repeat (destruct j as [|j]; [|try lia]);
           try lia; injection Hp as <- <-; vm_compute; reflexivity |]).
  destruct i; discriminate Hnth.
Qed.

End MoreServiceNames.

(* ====================================================================== *)
(** * Further properties of [Condition.translate] *)
(* ====================================================================== *)

Section MoreTranslation.

Import Py Condition Sql Kinds.

Variable N : NetUtils.

Lemma translate_many (k : kind) (vs : list pyval) :
  translate N (__init__ (Many vs) k)
  = match mapping N k with
    | Some method_translate => for_v method_translate vs None
    | None => Ok None
    end.
Proof. reflexivity. Qed.

(** ** Raising *)





(** ** What is raised *)






(** ** [None] as a result *)

Lemma for_v_some (m : pyval -> translated) :
  (forall v r, m v = Ok r -> r <> None) ->
  forall vs result r,
    for_v m vs result = Ok r ->
    vs <> [] \/ result <> None ->
    r <> None.
Proof.
  intros Hm. induction vs as [|v vs IH]; intros result r; simpl.
  - intros H [Hvs | Hres]; [now destruct Hvs|]. now injection H as <-.
  - destruct (m v) as [t|e] eqn:Hv; simpl; [|discriminate].
    pose proof (Hm v t Hv) as Ht.
    destruct t as [t|]; [|now destruct Ht].
    intros H _. destruct result as [a|];
      apply (IH _ _ H); right; discriminate.
Qed.

Ltac comparator_some :=
  intros ? ?;
  unfold __translate_ip, __translate_port, __translate_protocol,
    __translate_up, __translate_service_id, __translate_check_id;
  repeat match goal with
    | |- context [if ?c then _ else _] => destruct c
    | |- context [bind ?x _] => destruct x; cbn [bind]
    | |- context [match ?x with _ => _ end] => destruct x
    end;
  let H := fresh in
  intros H; try discriminate H; injection H as <-; discriminate.

(** Apart from the two flags, no comparator returns [None]. *)
Lemma comparator_not_none (m : FilterData) (f : pyval -> translated) :
  is_flag m = false ->
  mapping N (Member m) = Some f ->
  forall v r, f v = Ok r -> r <> None.
Proof.
  intros Hm Hf.
  destruct m; try discriminate Hm; cbn [mapping] in Hf; injection Hf as <-;
    comparator_some.
Qed.

(** X12. Only the two flags can leave a criterion without filter: for every
    other kind and every non-empty list of values, [translate] returns a
    filter whenever it returns. *)
Theorem translate_some_filter (m : FilterData) (vs : list pyval)
  (r : option Predicate) :
  is_flag m = false ->
  vs <> [] ->
  translate N (__init__ (Many vs) (Member m)) = Ok r ->
  exists p, r = Some p.
Proof.
  intros Hm Hvs. rewrite translate_many.
  destruct (mapping N (Member m)) as [f|] eqn:Hf;
    [|now destruct (mapping_member N m)].
  intros H.
  assert (Hr : r <> None).
  { apply (for_v_some f) with (vs := vs) (result := None);
      [|exact H|now left].
    exact (comparator_not_none m f Hm Hf). }
  destruct r as [p|]; [now exists p | now destruct Hr].
Qed.

(** ** Several values *)

(** X9. The first value on which the comparator raises ends [translate]
    with the exception of that value: the filters of the values before it
    are dropped and the values after it are not looked at. *)
Theorem translate_stops_at_first_raise (k : kind) (m : pyval -> translated)
  (before after : list pyval) (v : pyval) (e : exn) :
  mapping N k = Some m ->
  Forall (fun u => exists r, m u = Ok r) before ->
  m v = Raise e ->
  translate N (__init__ (Many (before ++ v :: after)) k) = Raise e.
Proof.
  intros Hk Hbefore Hv. rewrite translate_many, Hk.
  now apply for_v_raises.
Qed.

Lemma truth_or_assoc (a b c : truth) :
  truth_or a (truth_or b c) = truth_or (truth_or a b) c.
Proof. destruct a, b, c; reflexivity. Qed.

Lemma truth_or_comm (a b : truth) : truth_or a b = truth_or b a.
Proof. destruct a, b; reflexivity. Qed.

Lemma truth_or_false_r (a : truth) : truth_or a FALSE = a.
Proof. now destruct a. Qed.

Lemma fold_truth_or (ts : list truth) :
  forall a, fold_left truth_or ts a = truth_or a (truth_any ts).
Proof.
  induction ts as [|t ts IH]; intros a; simpl.
  - now rewrite truth_or_false_r.
  - now rewrite IH, truth_or_assoc.
Qed.

Lemma truth_any_app (l1 l2 : list truth) :
  truth_any (l1 ++ l2) = truth_or (truth_any l1) (truth_any l2).
Proof.
  induction l1 as [|t l1 IH]; simpl.
  - now destruct (truth_any l2).
  - now rewrite IH, truth_or_assoc.
Qed.

Lemma truth_any_perm (l1 l2 : list truth) :
  Permutation l1 l2 -> truth_any l1 = truth_any l2.
Proof.
  induction 1 as [|t l1 l2 _ IH|a b l|l1 l2 l3 _ IH1 _ IH2]; simpl.
  - reflexivity.
  - now rewrite IH.
  - now rewrite !truth_or_assoc, (truth_or_comm b a).
  - now rewrite IH1.
Qed.

(** The OR of a list of filters holds as the OR of their truth values. *)
Lemma holds_or_all (is_null : column -> bool) (compare : Predicate -> truth)
  (ps : list Predicate) :
  holds_any is_null compare (or_all ps)
  = truth_any (map (holds is_null compare) ps).
Proof.
  destruct ps as [|p ps]; simpl; [reflexivity|].
  now rewrite holds_fold_or, fold_truth_or.
Qed.

(** X8. When the comparator returns for every value, [translate] returns
    the OR, from the first value to the last, of the filters returned, the
    values for which [None] is returned being skipped; over a row this OR
    holds as the OR of the truth values of these filters. *)
Theorem translate_or_of_results (k : kind) (m : pyval -> translated)
  (vs : list pyval) (rs : list (option Predicate)) :
  mapping N k = Some m ->
  Forall2 (fun v r => m v = Ok r) vs rs ->
  translate N (__init__ (Many vs) k) = Ok (or_all (non_null rs))
  /\ forall is_null compare,
       holds_any is_null compare (or_all (non_null rs))
       = truth_any (map (holds is_null compare) (non_null rs)).
Proof.
  intros Hk Hvs. split; [|intros; apply holds_or_all].
  rewrite translate_many, Hk.
  now rewrite (for_v_returns m vs rs Hvs None).
Qed.

Lemma for_v_ok_inv (m : pyval -> translated) :
  forall vs result r,
    for_v m vs result = Ok r ->
    exists rs, Forall2 (fun v r => m v = Ok r) vs rs.
Proof.
  induction vs as [|v vs IH]; intros result r; simpl.
  - exists []. constructor.
  - destruct (m v) as [t|e] eqn:Hv; simpl; [|discriminate].
    intros H.
    assert (exists rs, Forall2 (fun v r => m v = Ok r) vs rs) as [rs Hrs].
    { destruct t as [t|]; destruct result as [a|]; eapply IH; exact H. }
    exists (t :: rs). now constructor.
Qed.

Lemma non_null_app (rs1 rs2 : list (option Predicate)) :
  non_null (rs1 ++ rs2) = (non_null rs1 ++ non_null rs2)%list.
Proof. unfold non_null. apply flat_map_app. Qed.

Lemma or_all_none (ps : list Predicate) : or_all ps = None <-> ps = [].
Proof. destruct ps; simpl; split; intros H; try discriminate; reflexivity. Qed.

(** X16. Translating two lists of values one after the other: when
    [translate] returns for each list, it returns for the two lists put
    together, with a filter unless there was none for either list, and the
    filter holds over a row as the OR of the filters of the two lists. *)
Theorem translate_app (k : kind) (vs ws : list pyval)
  (p q : option Predicate) :
  translate N (__init__ (Many vs) k) = Ok p ->
  translate N (__init__ (Many ws) k) = Ok q ->
  exists r,
    translate N (__init__ (Many (vs ++ ws)) k) = Ok r
    /\ (r = None <-> p = None /\ q = None)
    /\ forall is_null compare,
         holds_any is_null compare r
         = truth_or (holds_any is_null compare p)
             (holds_any is_null compare q).
Proof.
  rewrite !translate_many.
  destruct (mapping N k) as [m|].
  - intros Hp Hq.
    destruct (for_v_ok_inv m vs None p Hp) as [rs1 H1].
    destruct (for_v_ok_inv m ws None q Hq) as [rs2 H2].
    rewrite (for_v_returns m vs rs1 H1 None) in Hp. injection Hp as <-.
    rewrite (for_v_returns m ws rs2 H2 None) in Hq. injection Hq as <-.
    exists (or_all (non_null (rs1 ++ rs2))). split; [|split].
    + apply (for_v_returns m (vs ++ ws) (rs1 ++ rs2)).
      now apply Forall2_app.
    + simpl. rewrite !or_all_none, non_null_app. split.
      * intros H. now apply app_eq_nil in H.
      * now intros [-> ->].
    + intros is_null compare. simpl.
      now rewrite !holds_or_all, non_null_app, map_app, truth_any_app.
  - intros Hp Hq. injection Hp as <-. injection Hq as <-.
    exists None. repeat split; reflexivity.
Qed.

(** What the comparator returns, where it returns. *)
Lemma for_v_results (m : pyval -> translated) (vs : list pyval)
  (rs : list (option Predicate)) :
  Forall2 (fun v r => m v = Ok r) vs rs ->
  rs = map (fun v => match m v with Ok r => r | Raise _ => None end) vs.
Proof.
  induction 1 as [|v r vs rs Hv _ IH]; simpl; [reflexivity|].
  now rewrite Hv, IH.
Qed.

Lemma results_of_perm (m : pyval -> translated) (vs ws : list pyval) :
  Permutation vs ws ->
  Forall (fun v => exists r, m v = Ok r) vs ->
  Forall2 (fun v r => m v = Ok r) ws
    (map (fun v => match m v with Ok r => r | Raise _ => None end) ws).
Proof.
  intros Hperm Hvs.
  assert (Hws : Forall (fun v => exists r, m v = Ok r) ws).
  { apply Forall_forall. intros v Hin.
    apply (proj1 (Forall_forall _ vs) Hvs).
    now apply (Permutation_in v (Permutation_sym Hperm)). }
  clear Hperm Hvs. induction Hws as [|v ws [r Hv] _ IH]; simpl; constructor.
  - now rewrite Hv.
  - exact IH.
Qed.

Lemma Forall2_returns (m : pyval -> translated) (vs : list pyval)
  (rs : list (option Predicate)) :
  Forall2 (fun v r => m v = Ok r) vs rs ->
  Forall (fun v => exists r, m v = Ok r) vs.
Proof. induction 1; constructor; eauto. Qed.

(** X17. The order of the values does not change what the filter says:
    when [translate] returns for a list of values, it returns for every
    rearrangement of the list, with a filter if and only if there was one,
    and the two filters have the same truth value over every row. *)
Theorem translate_permutation (k : kind) (vs ws : list pyval)
  (p : option Predicate) :
  Permutation vs ws ->
  translate N (__init__ (Many vs) k) = Ok p ->
  exists q,
    translate N (__init__ (Many ws) k) = Ok q
    /\ (p = None <-> q = None)
    /\ forall is_null compare,
         holds_any is_null compare p = holds_any is_null compare q.
Proof.
  intros Hperm. rewrite !translate_many.
  destruct (mapping N k) as [m|];
    [|intros H; exists None; now injection H as <-].
  intros Hp. destruct (for_v_ok_inv m vs None p Hp) as [rs1 H1].
  rewrite (for_v_returns m vs rs1 H1 None) in Hp. injection Hp as <-.
  pose proof (results_of_perm m vs ws Hperm (Forall2_returns m vs rs1 H1))
    as H2.
  rewrite (for_v_results m vs rs1 H1).
  set (f := fun v => match m v with Ok r => r | Raise _ => None end) in *.
  assert (Hnn : Permutation (non_null (map f vs)) (non_null (map f ws))).
  { unfold non_null. apply Permutation_flat_map. now apply Permutation_map. }
  exists (or_all (non_null (map f ws))). split; [|split].
  - apply (for_v_returns m ws (map f ws) H2 None).
  - simpl. rewrite !or_all_none. split; intros H; rewrite H in Hnn.
    + now apply Permutation_nil.
    + now apply Permutation_nil, Permutation_sym.
  - intros is_null compare. simpl. rewrite !holds_or_all.
    apply truth_any_perm. now apply Permutation_map.
Qed.

(** ** The two flags, with several values *)

Lemma flag_results (p : Predicate) (vs : list pyval) :
  non_null (map (fun v => if truthy v then Some p else None) vs)
  = repeat p (List.length (filter truthy vs)).
Proof.
  induction vs as [|v vs IH]; simpl; [reflexivity|].
  destruct (truthy v); simpl; now rewrite IH.
Qed.

(** X13. With several values, a flag kind gives one copy of its filter per
    true value, joined by OR, and no filter when no value is true. *)
Theorem translate_flags_count (vs : list pyval) :
  translate N (__init__ (Many vs) (Member USER_AND_PASS))
  = Ok (or_all (repeat user_and_pass (List.length (filter truthy vs))))
  /\ translate N (__init__ (Many vs) (Member ONLY_USER))
     = Ok (or_all (repeat only_user (List.length (filter truthy vs)))).
Proof.
  split; rewrite translate_many; cbn [mapping].
  - rewrite <- flag_results. apply (for_v_returns _ vs _) with (result := None).
    induction vs as [|v vs IH]; simpl; constructor; [|exact IH].
    unfold __translate_user_and_pass. now destruct (truthy v).
  - rewrite <- flag_results. apply (for_v_returns _ vs _) with (result := None).
    induction vs as [|v vs IH]; simpl; constructor; [|exact IH].
    unfold __translate_only_user. now destruct (truthy v).
Qed.

(** ** From the filter back to the kind *)

Ltac comparator_kind :=
  unfold __translate_ip, __translate_port, __translate_protocol,
    __translate_up, __translate_service_id, __translate_check_id,
    __translate_user_and_pass, __translate_only_user;
  repeat match goal with
    | |- context [if ?c then _ else _] => destruct c
    | |- context [bind ?x _] => destruct x; cbn [bind]
    | |- context [match ?x with _ => _ end] => destruct x
    end;
  let H := fresh in
  intros H; try discriminate H; injection H as <-; reflexivity.

(** The filter of a single value tells the kind it was built for. *)
Lemma kind_of_translated (m : FilterData) (v : pyval) (p : Predicate) :
  translate N (__init__ (Single v) (Member m)) = Ok (Some p) ->
  kind_of_filter p = Some m.
Proof.
  rewrite translate_single. destruct m; cbn [mapping]; comparator_kind.
Qed.

(** X15. No two kinds build the same filter: if a value of one kind and a
    value of another are translated to the same filter, the two kinds are
    the same. *)
Theorem translate_kind_injective (m1 m2 : FilterData) (v1 v2 : pyval)
  (p : Predicate) :
  translate N (__init__ (Single v1) (Member m1)) = Ok (Some p) ->
  translate N (__init__ (Single v2) (Member m2)) = Ok (Some p) ->
  m1 = m2.
Proof.
  intros H1 H2.
  apply kind_of_translated in H1. apply kind_of_translated in H2.
  rewrite H1 in H2. now injection H2.
Qed.

(** ** Reading the values back *)

Lemma or_leaves_fold (ps : list Predicate) :
  forall p, or_leaves (fold_left or_ ps p)
            = (or_leaves p ++ flat_map or_leaves ps)%list.
Proof.
  induction ps as [|q ps IH]; intros p; simpl.
  - now rewrite app_nil_r.
  - rewrite IH. simpl. now rewrite <- app_assoc.
Qed.

Lemma leaves_or_all (ps : list Predicate) :
  Forall (fun p => or_leaves p = [p]) ps ->
  leaves (or_all ps) = ps.
Proof.
  intros H. destruct ps as [|p ps]; simpl; [reflexivity|].
  rewrite or_leaves_fold.
  inversion H as [|? ? Hp Hps]; subst. rewrite Hp. simpl. f_equal.
  clear Hp H. induction Hps as [|q ps Hq _ IH]; simpl; [reflexivity|].
  now rewrite Hq, IH.
Qed.

Lemma kind_of_single (p : Predicate) (m : FilterData) :
  kind_of_filter p = Some m -> or_leaves p = [p].
Proof. destruct p; simpl; try reflexivity. discriminate. Qed.

(** X14. The filters of the values can be read back from the result: the
    filters that the ORs of the result join are, from left to right, the
    filters that [translate] gives for each value on its own, the values
    without filter being skipped; apart from the two flags there is exactly
    one per value. *)
Theorem translate_leaves (m : FilterData) (vs : list pyval)
  (r : option Predicate) :
  translate N (__init__ (Many vs) (Member m)) = Ok r ->
  exists rs,
    Forall2 (fun v t => translate N (__init__ (Single v) (Member m)) = Ok t)
      vs rs
    /\ leaves r = non_null rs
    /\ (is_flag m = false -> List.length (leaves r) = List.length vs).
Proof.
  rewrite translate_many.
  destruct (mapping N (Member m)) as [f|] eqn:Hf;
    [|now destruct (mapping_member N m)].
  intros Hr. destruct (for_v_ok_inv f vs None r Hr) as [rs Hrs].
  rewrite (for_v_returns f vs rs Hrs None) in Hr. injection Hr as <-.
  assert (Hsingle : Forall2
            (fun v t => translate N (__init__ (Single v) (Member m)) = Ok t)
            vs rs).
  { clear -Hrs Hf. induction Hrs as [|v t vs rs Hv _ IH]; constructor.
    - now rewrite translate_single, Hf.
    - exact IH. }
  exists rs. split; [exact Hsingle|]. split.
  - simpl. apply leaves_or_all.
    clear -Hsingle. induction Hsingle as [|v t vs rs Hv _ IH]; simpl.
    + constructor.
    + destruct t as [p|]; simpl; [|exact IH].
      constructor; [|exact IH].
      apply (kind_of_single p m), (kind_of_translated m v p Hv).
  - intros Hflag. simpl. rewrite leaves_or_all.
    + clear -Hsingle Hflag Hf. induction Hsingle as [|v t vs rs Hv _ IH]; simpl.
      * reflexivity.
      * destruct t as [p|]; simpl; [now rewrite IH|].
        exfalso. rewrite translate_single, Hf in Hv.
        now apply (comparator_not_none m f Hflag Hf v None Hv).
    + clear -Hsingle. induction Hsingle as [|v t vs rs Hv _ IH]; simpl.
      * constructor.
      * destruct t as [p|]; simpl; [|exact IH].
        constructor; [|exact IH].
        apply (kind_of_single p m), (kind_of_translated m v p Hv).
Qed.

(** ** Letter case and other types in values *)

(** X18. [UP] and [PROTOCOL] read a string without regard to letter case:
    two strings that differ in case only give the same [UP] result, and the
    same [PROTOCOL] filter when one of them gives a filter. *)
Theorem translate_up_protocol_case (s t : string) :
  lower_str s = lower_str t ->
  translate N (__init__ (Single (VStr s)) (Member UP))
  = translate N (__init__ (Single (VStr t)) (Member UP))
  /\ forall p,
       translate N (__init__ (Single (VStr s)) (Member PROTOCOL)) = Ok p
       <-> translate N (__init__ (Single (VStr t)) (Member PROTOCOL)) = Ok p.
Proof.
  intros H. rewrite !translate_single. cbn [mapping].
  unfold __translate_up, __translate_protocol. simpl. rewrite H.
  split; [reflexivity|]. intros p.
  destruct (String.eqb (lower_str t) "tcp"); [reflexivity|].
  destruct (String.eqb (lower_str t) "udp"); [reflexivity|].
  split; discriminate.
Qed.

Lemma for_v_ext (f g : pyval -> translated) (h : pyval -> pyval) :
  (forall v, f v = g (h v)) ->
  forall vs result, for_v f vs result = for_v g (map h vs) result.
Proof.
  intros Hfg. induction vs as [|v vs IH]; intros result; simpl; [reflexivity|].
  rewrite <- Hfg. destruct (f v) as [[t|]|e]; simpl;
    [destruct result| |]; try apply IH; reflexivity.
Qed.

(** X19. The LIKE kinds and [URL_EXACT] see a value through [str] only: a
    list of values and the list of their [str] forms are translated alike,
    so that [None] and the string ["None"], or [80] and ["80"], cannot be
    told apart. *)
Theorem translate_through_str (m : FilterData) (vs : list pyval) :
  through_str m = true ->
  translate N (__init__ (Many vs) (Member m))
  = translate N (__init__ (Many (map (fun v => VStr (str v)) vs)) (Member m)).
Proof.
  intros Hm. rewrite !translate_many.
  destruct m; try discriminate Hm; cbn [mapping];
    apply for_v_ext; intros v; reflexivity.
Qed.

End MoreTranslation.

(* ====================================================================== *)
(** * The further properties at concrete inputs *)
(* ====================================================================== *)

Section MoreInstances.

Import Py Re Config Condition Sql Kinds Names.

Lemma get_service_name_ignores_case_witness :
  get_service_name "Ms-SQL-s" = get_service_name "ms-sql-S"
  \/ (get_service_name "Ms-SQL-s" = "Ms-SQL-s"
      /\ get_service_name "ms-sql-S" = "ms-sql-S"
      /\ forall p n, In (p, n) SERVICE_NAME_MATCHING ->
                     match_ignorecase p "Ms-SQL-s" = false
                     /\ match_ignorecase p "ms-sql-S" = false).
Proof.
  apply (get_service_name_ignores_case "Ms-SQL-s" "ms-sql-S"). reflexivity.
Defined.

Lemma get_service_name_blank_first_witness :
  get_service_name " ssh" = " ssh".
Proof.
  apply (proj2 get_service_name_blank_first " "%char "ssh"). reflexivity.
Defined.

Lemma get_service_name_ajp_ftp_first_witness :
  get_service_name "AJP13" = "ajp"
  /\ get_service_name "FTP-http-proxy" = "ftp".
Proof.
  split.
  - apply (proj1 (get_service_name_ajp_ftp_first "AJP13" "13")).
    reflexivity.
  - apply (proj2 (get_service_name_ajp_ftp_first "FTP-http-proxy"
                    "-http-proxy")).
    reflexivity.
Defined.

Lemma get_service_name_http_inside_witness :
  get_service_name "ssl/HTTPS" = "http"
  \/ get_service_name "ssl/HTTPS" = "ajp"
  \/ get_service_name "ssl/HTTPS" = "ftp".
Proof.
  apply (get_service_name_http_inside "ssl/HTTPS" "ssl/" "s"); reflexivity.
Defined.

Lemma every_rule_fires_witness :
  exists s,
    nth_error samples 3 = Some s
    /\ match_ignorecase "^ssl/ssl" s = true
    /\ (forall j p n, (j < 3)%nat ->
                      nth_error SERVICE_NAME_MATCHING j = Some (p, n) ->
                      match_ignorecase p s = false)
    /\ get_service_name s = "http".
Proof.
  apply (every_rule_fires 3 "^ssl/ssl" "http"). reflexivity.
Defined.

Lemma translate_or_of_results_witness :
  translate SpecNetUtils.net_utils
    (__init__ (Many [VBool true; VBool false; VStr "x"]) (Member ONLY_USER))
  = Ok (or_all (non_null [Some only_user; None; Some only_user])).
Proof.
  apply (translate_or_of_results SpecNetUtils.net_utils
           (Member ONLY_USER) __translate_only_user
           [VBool true; VBool false; VStr "x"]
           [Some only_user; None; Some only_user]).
  - reflexivity.
  - repeat constructor.
Defined.

Lemma translate_stops_at_first_raise_witness :
  translate SpecNetUtils.net_utils
    (__init__ (Many [VStr "tcp"; VStr "icmp"; VStr "udp"]) (Member PROTOCOL))
  = Raise (FilterException "icmp invalid protocol").
Proof.
  apply (translate_stops_at_first_raise SpecNetUtils.net_utils
           (Member PROTOCOL) __translate_protocol
           [VStr "tcp"] [VStr "udp"] (VStr "icmp")).
  - reflexivity.
  - constructor; [eexists; reflexivity | constructor].
  - reflexivity.
Defined.



Lemma translate_some_filter_witness :
  exists p,
    Some (or_ (__eq__ (Col Service "name") (Val (VStr "ssh")))
              (__eq__ (Col Service "name") (Val (VStr "ftp"))))
    = Some p.
Proof.
  apply (translate_some_filter SpecNetUtils.net_utils SERVICE_EXACT
           [VStr "ssh"; VStr "ftp"]).
  - reflexivity.
  - discriminate.
  - reflexivity.
Defined.

Lemma translate_leaves_witness :
  exists rs,
    Forall2
      (fun v t =>
         translate SpecNetUtils.net_utils
           (__init__ (Single v) (Member SERVICE_EXACT)) = Ok t)
      [VStr "ssh"; VStr "ftp"] rs
    /\ leaves (Some (or_ (__eq__ (Col Service "name") (Val (VStr "ssh")))
                         (__eq__ (Col Service "name") (Val (VStr "ftp")))))
       = non_null rs
    /\ (is_flag SERVICE_EXACT = false ->
        List.length
          (leaves (Some (or_ (__eq__ (Col Service "name") (Val (VStr "ssh")))
                             (__eq__ (Col Service "name")
                                     (Val (VStr "ftp"))))))
        = List.length [VStr "ssh"; VStr "ftp"]).
Proof.
  apply (translate_leaves SpecNetUtils.net_utils SERVICE_EXACT
           [VStr "ssh"; VStr "ftp"]).
  reflexivity.
Defined.

Lemma translate_kind_injective_witness : MISSION = MISSION.
Proof.
  apply (translate_kind_injective SpecNetUtils.net_utils MISSION MISSION
           (VStr "red") (VStr "red")
           (ilike (Col Mission "name") "%red%")); reflexivity.
Defined.

Lemma translate_app_witness :
  exists r,
    translate SpecNetUtils.net_utils
      (__init__ (Many ([VStr "10.0.0.1"] ++ [VStr "10.0.0.0/24"]))
         (Member IP))
    = Ok r
    /\ (r = None <->
        Some (__eq__ (Col Host "ip") (Val (VStr "10.0.0.1"))) = None
        /\ Some (is_in_ip_range (VStr "10.0.0.0/24")) = None)
    /\ forall is_null compare,
         holds_any is_null compare r
         = truth_or
             (holds_any is_null compare
                (Some (__eq__ (Col Host "ip") (Val (VStr "10.0.0.1")))))
             (holds_any is_null compare
                (Some (is_in_ip_range (VStr "10.0.0.0/24")))).
Proof.
  apply (translate_app SpecNetUtils.net_utils (Member IP)
           [VStr "10.0.0.1"] [VStr "10.0.0.0/24"]); reflexivity.
Defined.

Lemma translate_permutation_witness :
  exists q,
    translate SpecNetUtils.net_utils
      (__init__ (Many [VStr "udp"; VStr "tcp"]) (Member PROTOCOL))
    = Ok q
    /\ (Some (or_ (__eq__ (Col Service "protocol") (Enum TCP))
                  (__eq__ (Col Service "protocol") (Enum UDP))) = None
        <-> q = None)
    /\ forall is_null compare,
         holds_any is_null compare
           (Some (or_ (__eq__ (Col Service "protocol") (Enum TCP))
                      (__eq__ (Col Service "protocol") (Enum UDP))))
         = holds_any is_null compare q.
Proof.
  apply (translate_permutation SpecNetUtils.net_utils (Member PROTOCOL)
           [VStr "tcp"; VStr "udp"] [VStr "udp"; VStr "tcp"]).
  - apply perm_swap.
  - reflexivity.
Defined.

Lemma translate_up_protocol_case_witness :
  translate SpecNetUtils.net_utils (__init__ (Single (VStr "TRUE")) (Member UP))
  = translate SpecNetUtils.net_utils
      (__init__ (Single (VStr "true")) (Member UP))
  /\ forall p,
       translate SpecNetUtils.net_utils
         (__init__ (Single (VStr "TRUE")) (Member PROTOCOL)) = Ok p
       <-> translate SpecNetUtils.net_utils
             (__init__ (Single (VStr "true")) (Member PROTOCOL)) = Ok p.
Proof.
  apply (translate_up_protocol_case SpecNetUtils.net_utils "TRUE" "true").
  reflexivity.
Defined.

Lemma translate_through_str_witness :
  translate SpecNetUtils.net_utils
    (__init__ (Many [VNone; VInt 80]) (Member BANNER))
  = translate SpecNetUtils.net_utils
      (__init__ (Many [VStr "None"; VStr "80"]) (Member BANNER)).
Proof.
  apply (translate_through_str SpecNetUtils.net_utils BANNER [VNone; VInt 80]).
  reflexivity.
Defined.

End MoreInstances.
